(** * celebi: migration synchronisation command and CRUD view mixins

    A shallow embedding of the parts of the repository that carry behaviour:

    - [app/management/commands/syncmigrate.py]: the [save], [load] and
      [initial] actions of the migration synchronisation command, over an
      explicit world made of a file system, the [MigrationsHistory] table and
      a trace of the effects performed;
    - [app/mixin/views.py]: the response envelope, pagination, the
      transaction-wrapped CRUD flows and the authentication / permission
      dispatch;
    - [app/management/base.py], [app/utils/formatter.py],
      [app/serializers.py] and [app/views.py]: the command base class, the
      terminal formatter, the serializer cache and the choice endpoint.

    Python [str] values are sequences of Unicode code points and are modelled
    as [list N].  Definitions come first, the facts proved about them follow. *)

From Stdlib Require Import NArith ZArith String Ascii List Bool Lia DecimalString.
From stdpp Require Import base option list gmap.

Local Open Scope N_scope.

(** ** Python text *)

(** A Python [str]: its code points, in order. *)
Abbreviation text := (list N).

(** The code points of an ASCII literal. *)
Fixpoint lit (s : string) : text :=
  match s with
  | EmptyString => []
  | String a s' => N_of_ascii a :: lit s'
  end.

Definition text_eqb (a b : text) : bool := bool_decide (a = b).

(** [s.split(sep)] for a one-character separator: never empty. *)
Fixpoint split (sep : N) (s : text) : list text :=
  match s with
  | [] => [[]]
  | c :: s' =>
      if N.eqb c sep then [] :: split sep s'
      else match split sep s' with
           | [] => [[c]]
           | w :: ws => (c :: w) :: ws
           end
  end.

(** [sep.join(parts)]. *)
Fixpoint join_with (sep : text) (parts : list text) : text :=
  match parts with
  | [] => []
  | [p] => p
  | p :: ps => p ++ sep ++ join_with sep ps
  end.

(** [parts[0]] and [parts[-1]] of a split result. *)
Definition first_part (parts : list text) : text := hd [] parts.
Definition last_part (parts : list text) : text := List.last parts [].

Definition c_dot : N := 46.
Definition c_slash : N := 47.

Definition starts_with_sep (p : text) : bool :=
  match p with
  | c :: _ => N.eqb c c_slash
  | [] => false
  end.

Definition ends_with_sep (p : text) : bool :=
  match List.last (map Some p) None with
  | Some c => N.eqb c c_slash
  | None => false
  end.

(** [os.path.join(a, b)] of posixpath, for two arguments. *)
Definition path_join (a b : text) : text :=
  if starts_with_sep b then b
  else if (match a with [] => true | _ => false end) || ends_with_sep a then a ++ b
  else a ++ c_slash :: b.

(** ** The JSON codec of [json.dumps] / [json.loads] on lists of strings *)

Definition c_quote : N := 34.
Definition c_backslash : N := 92.
Definition c_lbracket : N := 91.
Definition c_rbracket : N := 93.
Definition c_comma : N := 44.
Definition c_space : N := 32.
Definition c_u : N := 117.

(** [Py_hexdigits[d]]: lower-case hexadecimal digit of a nibble. *)
Definition hexdigit (d : N) : N := if d <? 10 then 48 + d else 87 + d.

(** The four digits written after a backslash-u by the encoder. *)
Definition hex4 (c : N) : text :=
  [ hexdigit (N.land (N.shiftr c 12) 15); hexdigit (N.land (N.shiftr c 8) 15);
    hexdigit (N.land (N.shiftr c 4) 15); hexdigit (N.land c 15) ].

Definition u_escape (c : N) : text := c_backslash :: c_u :: hex4 c.

(** [S_CHAR(c)]: printable ASCII other than the quote and the backslash. *)
Definition s_char (c : N) : bool :=
  (32 <=? c) && (c <=? 126) && negb (c =? c_backslash) && negb (c =? c_quote).

(** [ascii_escape_unichar]: the escape of one code point ([ensure_ascii]). *)
Definition escape_char (c : N) : text :=
  if s_char c then [c]
  else if c =? c_backslash then [c_backslash; c_backslash]
  else if c =? c_quote then [c_backslash; c_quote]
  else if c =? 8 then [c_backslash; 98]
  else if c =? 12 then [c_backslash; 102]
  else if c =? 10 then [c_backslash; 110]
  else if c =? 13 then [c_backslash; 114]
  else if c =? 9 then [c_backslash; 116]
  else if 65536 <=? c then
    let v := c - 65536 in
    u_escape (N.lor 55296 (N.land (N.shiftr v 10) 1023))
    ++ u_escape (N.lor 56320 (N.land v 1023))
  else u_escape c.

Definition escape (s : text) : text := flat_map escape_char s.

(** [encode_basestring_ascii(s)]. *)
Definition encode_str (s : text) : text := c_quote :: escape s ++ [c_quote].

(** [json.dumps(lines)] for a list of [str], with the default separators. *)
Definition json_dumps (lines : list text) : text :=
  c_lbracket :: join_with [c_comma; c_space] (map encode_str lines) ++ [c_rbracket].

(** Value of a hexadecimal digit, either case. *)
Definition hexval (c : N) : option N :=
  if (48 <=? c) && (c <=? 57) then Some (c - 48)
  else if (97 <=? c) && (c <=? 102) then Some (c - 87)
  else if (65 <=? c) && (c <=? 70) then Some (c - 55)
  else None.

(** [_decode_uXXXX]: four hexadecimal digits. *)
Definition unhex4 (a b c d : N) : option N :=
  match hexval a, hexval b, hexval c, hexval d with
  | Some x, Some y, Some z, Some w => Some (((x * 16 + y) * 16 + z) * 16 + w)
  | _, _, _, _ => None
  end.

(** The [BACKSLASH] table of the decoder. *)
Definition unescape_simple (e : N) : option N :=
  if e =? c_quote then Some c_quote
  else if e =? c_backslash then Some c_backslash
  else if e =? 47 then Some 47
  else if e =? 98 then Some 8
  else if e =? 102 then Some 12
  else if e =? 110 then Some 10
  else if e =? 114 then Some 13
  else if e =? 116 then Some 9
  else None.

Definition is_ws (c : N) : bool := (c =? 32) || (c =? 9) || (c =? 10) || (c =? 13).
Definition is_high_surrogate (c : N) : bool := (55296 <=? c) && (c <=? 56319).
Definition is_low_surrogate (c : N) : bool := (56320 <=? c) && (c <=? 57343).

(** Where the array scanner of the decoder stands. *)
Inductive jstate :=
| JStart                (* before the opening bracket *)
| JFirst                (* after the opening bracket *)
| JValue                (* after a comma *)
| JStr (cur : text)     (* inside a string, [cur] decoded so far *)
| JAfter                (* after a value *)
| JEnd.                 (* after the closing bracket *)

(** [json.loads(s)] restricted to what [load] iterates over: a JSON array of
    strings.  [None] stands for every other input (where the real call raises
    or yields a value that is not a list of [str]). *)
Fixpoint json_scan (st : jstate) (acc : list text) (s : text) : option (list text) :=
  match s with
  | [] => match st with JEnd => Some acc | _ => None end
  | c :: s1 =>
      match st with
      | JStart =>
          if is_ws c then json_scan JStart acc s1
          else if c =? c_lbracket then json_scan JFirst acc s1
          else None
      | JFirst =>
          if is_ws c then json_scan JFirst acc s1
          else if c =? c_rbracket then json_scan JEnd acc s1
          else if c =? c_quote then json_scan (JStr []) acc s1
          else None
      | JValue =>
          if is_ws c then json_scan JValue acc s1
          else if c =? c_quote then json_scan (JStr []) acc s1
          else None
      | JAfter =>
          if is_ws c then json_scan JAfter acc s1
          else if c =? c_comma then json_scan JValue acc s1
          else if c =? c_rbracket then json_scan JEnd acc s1
          else None
      | JEnd => if is_ws c then json_scan JEnd acc s1 else None
      | JStr cur =>
          if c =? c_quote then json_scan JAfter (acc ++ [cur]) s1
          else if c <=? 31 then None
          else if negb (c =? c_backslash) then json_scan (JStr (cur ++ [c])) acc s1
          else
            match s1 with
            | [] => None
            | e :: s2 =>
                if negb (e =? c_u) then
                  match unescape_simple e with
                  | Some x => json_scan (JStr (cur ++ [x])) acc s2
                  | None => None
                  end
                else
                  match s2 with
                  | h1 :: h2 :: h3 :: h4 :: s3 =>
                      match unhex4 h1 h2 h3 h4 with
                      | None => None
                      | Some uni =>
                          if is_high_surrogate uni then
                            match s3 with
                            | b :: u :: s4 =>
                                if (b =? c_backslash) && (u =? c_u) then
                                  match s4 with
                                  | g1 :: g2 :: g3 :: g4 :: s5 =>
                                      match unhex4 g1 g2 g3 g4 with
                                      | None => None
                                      | Some uni2 =>
                                          if is_low_surrogate uni2 then
                                            json_scan
                                              (JStr (cur ++ [65536 + N.lor (N.shiftl (uni - 55296) 10) (uni2 - 56320)]))
                                              acc s5
                                          else json_scan (JStr (cur ++ [uni])) acc s3
                                      end
                                  | _ => None
                                  end
                                else json_scan (JStr (cur ++ [uni])) acc s3
                            | _ => json_scan (JStr (cur ++ [uni])) acc s3
                            end
                          else json_scan (JStr (cur ++ [uni])) acc s3
                      end
                  | _ => None
                  end
            end
      end
  end.

Definition json_loads (s : text) : option (list text) := json_scan JStart [] s.

(** A code point that decoding a UTF-8 file can produce: a Unicode scalar
    value (below 0x110000 and not a surrogate). *)
Definition scalar_value (c : N) : bool :=
  (c <? 1114112) && negb ((55296 <=? c) && (c <=? 57343)).

Definition well_formed (s : text) : Prop := forallb scalar_value s = true.

(** ** The world of the synchronisation command *)

(** A file-system entry.  A file holds the text that text-mode I/O reads from
    it and writes to it; a directory holds what the top triple of [os.walk]
    reports for it: the names of its sub-directories and of its other entries,
    in the order of the directory scan.  Paths are compared as strings. *)
Inductive node :=
| File (content : text)
| Dir (dirnames filenames : list text).

(** A row of [MigrationsHistory] ([app/models.py]); the columns inherited from
    [BasicModel] are never set by the command and are left out. *)
Record MigrationsHistory := {
  app_name : text;
  file_name : text;
  file_content : text
}.

(** What the command prints: the text passed to [output_formatter], by shape. *)
Inductive message :=
| MsgSaved (app file : text)
| MsgIgnored (app file : text)
| MsgLoaded (app : text)
| MsgText (t : text).

(** The effects the command performs, in the order it performs them. *)
Inductive event :=
| EExists (p : text)
| EWalk (p : text)
| ERead (p : text)
| EMkdir (p : text)
| EWrite (p : text) (content : text)
| EGet (app name : text)
| ECreate (r : MigrationsHistory)
| EFilter (app : text)
| EPrint (m : message).

Inductive exn :=
| IndexError
| ValueError
| FileNotFoundError
| FileExistsError
| IsADirectoryError
| NotADirectoryError
| MultipleObjectsReturned
| JSONDecodeError.

Record world := {
  fs : gmap text node;
  store : list MigrationsHistory;
  trace : list event
}.

(** [settings.BASE_DIR] and [settings.INSTALLED_APPS]. *)
Record settings := {
  BASE_DIR : text;
  INSTALLED_APPS : list text
}.

(** The result of a call: a value, or an exception that unwinds. *)
Inductive outcome (A : Type) :=
| Ret (a : A)
| Raise (e : exn).
Arguments Ret {A} a.
Arguments Raise {A} e.

(** Commands: the world is threaded through, and a change made before an
    exception stays made (the command runs outside any transaction). *)
Definition M (A : Type) : Type := world -> outcome A * world.

Definition ret {A} (a : A) : M A := fun w => (Ret a, w).
Definition raise {A} (e : exn) : M A := fun w => (Raise e, w).
Definition bind {A B} (m : M A) (k : A -> M B) : M B :=
  fun w => match m w with
           | (Ret a, w') => k a w'
           | (Raise e, w') => (Raise e, w')
           end.

Notation "x <- m ;; k" := (bind m (fun x => k))
  (at level 100, m at next level, right associativity).
Notation "m ;;; k" := (bind m (fun _ => k))
  (at level 100, right associativity).

(** A [for] loop over a list already computed. *)
Fixpoint for_each {A} (l : list A) (body : A -> M unit) : M unit :=
  match l with
  | [] => ret tt
  | x :: l' => body x ;;; for_each l' body
  end.

Definition log (e : event) : M unit :=
  fun w => (Ret tt, {| fs := fs w; store := store w; trace := trace w ++ [e] |}).

Definition set_fs (f : gmap text node) : M unit :=
  fun w => (Ret tt, {| fs := f; store := store w; trace := trace w |}).

Definition set_store (s : list MigrationsHistory) : M unit :=
  fun w => (Ret tt, {| fs := fs w; store := s; trace := trace w |}).

Definition get_fs : M (gmap text node) := fun w => (Ret (fs w), w).
Definition get_store : M (list MigrationsHistory) := fun w => (Ret (store w), w).

(** *** File-system calls *)

(** [os.path.exists(p)]. *)
Definition path_exists (p : text) : M bool :=
  log (EExists p) ;;;
  f <- get_fs ;;
  ret (match f !! p with Some _ => true | None => false end).

(** [list(os.walk(p))[0]], reduced to its list of file names: the walk of
    something that is not a directory yields nothing, and indexing fails. *)
Definition walk_top (p : text) : M (list text) :=
  log (EWalk p) ;;;
  f <- get_fs ;;
  match f !! p with
  | Some (Dir _ names) => ret names
  | _ => raise IndexError
  end.

(** [f.readlines()]: the lines of a text, each with its line feed. *)
Fixpoint lines_from (cur : text) (s : text) : list text :=
  match s with
  | [] => match cur with [] => [] | _ => [cur] end
  | c :: s' =>
      if c =? 10 then (cur ++ [c]) :: lines_from [] s'
      else lines_from (cur ++ [c]) s'
  end.

Definition readlines (content : text) : list text := lines_from [] content.

(** [open(p, "r", encoding='UTF-8')] followed by [readlines()]. *)
Definition read_lines (p : text) : M (list text) :=
  log (ERead p) ;;;
  f <- get_fs ;;
  match f !! p with
  | Some (File content) => ret (readlines content)
  | Some (Dir _ _) => raise IsADirectoryError
  | None => raise FileNotFoundError
  end.

(** [os.path.dirname(p)] and [os.path.basename(p)] of posixpath. *)
Fixpoint rstrip_sep (p : text) : text :=
  match p with
  | [] => []
  | c :: p' =>
      match rstrip_sep p' with
      | [] => if c =? c_slash then [] else [c]
      | r => c :: r
      end
  end.

(** The part of [p] after its last separator, if it has one. *)
Fixpoint after_last_sep (p : text) : option text :=
  match p with
  | [] => None
  | c :: p' =>
      match after_last_sep p' with
      | Some t => Some t
      | None => if c =? c_slash then Some p' else None
      end
  end.

Definition basename (p : text) : text :=
  match after_last_sep p with
  | Some t => t
  | None => p
  end.

Definition dirname (p : text) : text :=
  let head := firstn (length p - length (basename p)) p in
  match rstrip_sep head with
  | [] => head
  | r => r
  end.

Definition add_name (n : text) (names : list text) : list text :=
  if bool_decide (n ∈ names) then names else names ++ [n].

(** The directory that must hold a new entry [p], or the exception raised
    when it cannot. *)
Definition parent_dir (f : gmap text node) (p : text) : outcome (list text * list text) :=
  match f !! dirname p with
  | Some (Dir ds fns) => Ret (ds, fns)
  | Some (File _) => Raise NotADirectoryError
  | None => Raise FileNotFoundError
  end.

(** [os.mkdir(p)]. *)
Definition mkdir (p : text) : M unit :=
  log (EMkdir p) ;;;
  f <- get_fs ;;
  match f !! p with
  | Some _ => raise FileExistsError
  | None =>
      match parent_dir f p with
      | Raise e => raise e
      | Ret (ds, fns) =>
          set_fs (<[p := Dir [] []]> (<[dirname p := Dir (add_name (basename p) ds) fns]> f))
      end
  end.

(** [open(p, "w", encoding='UTF-8')], the writes and the close, as one step:
    [content] is what the file holds once closed. *)
Definition write_file (p : text) (content : text) : M unit :=
  f <- get_fs ;;
  match f !! p with
  | Some (Dir _ _) => raise IsADirectoryError
  | _ =>
      match parent_dir f p with
      | Raise e => raise e
      | Ret (ds, fns) =>
          log (EWrite p content) ;;;
          set_fs (<[p := File content]> (<[dirname p := Dir ds (add_name (basename p) fns)]> f))
      end
  end.

Definition print (m : message) : M unit := log (EPrint m).

(** *** Table calls *)

Definition same_key (app name : text) (r : MigrationsHistory) : bool :=
  bool_decide (app_name r = app) && bool_decide (file_name r = name).

(** [MigrationsHistory.objects.get_or_create(app_name=app, file_name=name,
    defaults={"file_content": content})]: the flag tells whether a row was
    created.  The table declares no uniqueness, so several rows may match. *)
Definition get_or_create (app name content : text) : M bool :=
  log (EGet app name) ;;;
  s <- get_store ;;
  match List.filter (same_key app name) s with
  | [] =>
      let r := {| app_name := app; file_name := name; file_content := content |} in
      log (ECreate r) ;;; set_store (s ++ [r]) ;;; ret true
  | [_] => ret false
  | _ => raise MultipleObjectsReturned
  end.

(** [MigrationsHistory.objects.filter(app_name=app)], evaluated. *)
Definition filter_app (app : text) : M (list MigrationsHistory) :=
  log (EFilter app) ;;;
  s <- get_store ;;
  ret (List.filter (fun r => bool_decide (app_name r = app)) s).

(** *** The command ([syncmigrate.Command]) *)

Definition migrations_dir_name : text := lit "migrations".
Definition init_py : text := lit "__init__.py".
Definition pyc : text := lit "pyc".
Definition dot_py : text := lit ".py".
Definition coding_header : text := lit "# coding:utf-8" ++ [10].

(** [d[k] = v] on a dictionary kept in insertion order. *)
Fixpoint dict_set (k v : text) (d : list (text * text)) : list (text * text) :=
  match d with
  | [] => [(k, v)]
  | (k', v') :: d' => if bool_decide (k' = k) then (k, v) :: d' else (k', v') :: dict_set k v d'
  end.

(** [get_app_migrations_dir]: the migrations directory of every installed
    application whose directory exists, keyed by the application's path. *)
Fixpoint collect_app_dirs (cfg : settings) (apps : list text) (acc : list (text * text))
  : M (list (text * text)) :=
  match apps with
  | [] => ret acc
  | app :: apps' =>
      let app_path := join_with [c_slash] (split c_dot app) in
      let abs_app_path := path_join (BASE_DIR cfg) app_path in
      e <- path_exists abs_app_path ;;
      if e then
        collect_app_dirs cfg apps'
          (dict_set app_path (path_join abs_app_path migrations_dir_name) acc)
      else collect_app_dirs cfg apps' acc
  end.

Definition get_app_migrations_dir (cfg : settings) : M (list (text * text)) :=
  collect_app_dirs cfg (INSTALLED_APPS cfg) [].

(** [file_list.remove(x)]: drops the first occurrence, fails without one. *)
Fixpoint list_remove (x : text) (l : list text) : option (list text) :=
  match l with
  | [] => None
  | y :: l' =>
      if bool_decide (y = x) then Some l'
      else match list_remove x l' with
           | Some r => Some (y :: r)
           | None => None
           end
  end.

(** The test that makes the loop of [get_app_migrations_file] skip a name. *)
Definition skipped (file : text) : bool :=
  bool_decide (file = init_py) || bool_decide (last_part (split c_dot file) = pyc).

(** [get_app_migrations_file(path)]. *)
Definition get_app_migrations_file (path : text) : M (list text) :=
  e <- path_exists path ;;
  if e then
    file_list <- walk_top path ;;
    match list_remove init_py file_list with
    | None => raise ValueError
    | Some file_list' =>
        ret (map (path_join path) (List.filter (fun file => negb (skipped file)) file_list'))
    end
  else ret [].

(** The [file_name] under which [save] stores [file]: [file.split(".")[0]]. *)
Definition record_name (file : text) : text := first_part (split c_dot file).

(** The body of the inner loop of [save]. *)
Definition save_file (app file : text) : M unit :=
  lines <- read_lines file ;;
  status <- get_or_create app (record_name file) (json_dumps lines) ;;
  print (if status : bool then MsgSaved app file else MsgIgnored app file).

(** The body of the outer loop of [save]. *)
Definition save_app (entry : text * text) : M unit :=
  let '(app, path) := entry in
  file_list <- get_app_migrations_file path ;;
  for_each file_list (save_file app).

Definition save (cfg : settings) : M unit :=
  app_migrations_dir <- get_app_migrations_dir cfg ;;
  for_each app_migrations_dir save_app.

(** The path [load] writes a row to. *)
Definition load_target (path : text) (r : MigrationsHistory) : text :=
  path_join path (file_name r ++ dot_py).

(** The body of the inner loop of [load]: the header is written before the
    stored content is decoded, so a content that does not decode leaves a
    file holding the header alone. *)
Definition load_record (path : text) (r : MigrationsHistory) : M unit :=
  match json_loads (file_content r) with
  | Some lines => write_file (load_target path r) (coding_header ++ concat lines)
  | None => write_file (load_target path r) coding_header ;;; raise JSONDecodeError
  end.

(** The body of the outer loop of [load]. *)
Definition load_app (entry : text * text) : M unit :=
  let '(app, path) := entry in
  e <- path_exists path ;;
  (if e then ret tt else mkdir path) ;;;
  write_file (path_join path init_py) [] ;;;
  rows <- filter_app app ;;
  for_each rows (load_record path) ;;;
  print (MsgLoaded app).

Definition load (cfg : settings) : M unit :=
  app_migrations_dir <- get_app_migrations_dir cfg ;;
  for_each app_migrations_dir load_app.

Definition initial : M unit := print (MsgText (lit "initial")).

(** *** What [save] does, read off the file system

    [save] never writes to the file system, so the calls it makes on the
    table are a function of the file system it starts from. *)

Definition exists_in (f : gmap text node) (p : text) : bool :=
  match f !! p with Some _ => true | None => false end.

Fixpoint app_dirs_from (cfg : settings) (f : gmap text node) (apps : list text)
    (acc : list (text * text)) : list (text * text) :=
  match apps with
  | [] => acc
  | app :: apps' =>
      let app_path := join_with [c_slash] (split c_dot app) in
      let abs_app_path := path_join (BASE_DIR cfg) app_path in
      if exists_in f abs_app_path then
        app_dirs_from cfg f apps'
          (dict_set app_path (path_join abs_app_path migrations_dir_name) acc)
      else app_dirs_from cfg f apps' acc
  end.

Definition app_dirs (cfg : settings) (f : gmap text node) : list (text * text) :=
  app_dirs_from cfg f (INSTALLED_APPS cfg) [].

Definition kept (names : list text) : list text :=
  List.filter (fun file => negb (skipped file)) names.

Definition files_of (f : gmap text node) (path : text) : outcome (list text) :=
  match f !! path with
  | None => Ret []
  | Some (File _) => Raise IndexError
  | Some (Dir _ names) =>
      match list_remove init_py names with
      | None => Raise ValueError
      | Some names' => Ret (map (path_join path) (kept names'))
      end
  end.

Definition lines_of (f : gmap text node) (file : text) : outcome (list text) :=
  match f !! file with
  | Some (File content) => Ret (readlines content)
  | Some (Dir _ _) => Raise IsADirectoryError
  | None => Raise FileNotFoundError
  end.

(** One step of [save] on the table: a [get_or_create], or an exception
    raised before the table is reached. *)
Inductive step :=
| SCreate (app name content : text)
| SFail (e : exn).

Definition file_step (f : gmap text node) (app file : text) : step :=
  match lines_of f file with
  | Ret lines => SCreate app (record_name file) (json_dumps lines)
  | Raise e => SFail e
  end.

Definition app_steps (f : gmap text node) (entry : text * text) : list step :=
  match files_of f (snd entry) with
  | Ret files => map (file_step f (fst entry)) files
  | Raise e => [SFail e]
  end.

Definition save_plan (cfg : settings) (f : gmap text node) : list step :=
  flat_map (app_steps f) (app_dirs cfg f).

Definition run_step (st : step) (s : list MigrationsHistory)
  : outcome unit * list MigrationsHistory :=
  match st with
  | SFail e => (Raise e, s)
  | SCreate app name content =>
      match List.filter (same_key app name) s with
      | [] => (Ret tt, s ++ [{| app_name := app; file_name := name; file_content := content |}])
      | [_] => (Ret tt, s)
      | _ => (Raise MultipleObjectsReturned, s)
      end
  end.

Fixpoint run_plan (p : list step) (s : list MigrationsHistory)
  : outcome unit * list MigrationsHistory :=
  match p with
  | [] => (Ret tt, s)
  | st :: p' =>
      match run_step st s with
      | (Ret _, s') => run_plan p' s'
      | (Raise e, s') => (Raise e, s')
      end
  end.

(** The world [w] with another trace, and with another table and trace. *)
Definition with_trace (w : world) (t : list event) : world :=
  {| fs := fs w; store := store w; trace := t |}.

Definition with_store (w : world) (s : list MigrationsHistory) (t : list event) : world :=
  {| fs := fs w; store := s; trace := t |}.


(** *** Two small deployments *)

Local Open Scope string_scope.

(** A project at [/srv/site] with one application, [blog], that has one
    migration. *)
Definition site_settings : settings :=
  {| BASE_DIR := lit "/srv/site";
     INSTALLED_APPS := [lit "django.contrib.admin"; lit "blog"] |}.

Definition migration_text : text :=
  lit "from django.db import migrations" ++ [10] ++ lit "class Migration(migrations.Migration):" ++ [10]
  ++ lit "    initial = True" ++ [10].

Definition site_fs : gmap text node :=
  <[lit "/srv/site/blog/migrations/0001_initial.py" := File migration_text]>
  (<[lit "/srv/site/blog/migrations/__init__.py" := File []]>
  (<[lit "/srv/site/blog/migrations" := Dir [] [lit "__init__.py"; lit "0001_initial.py"]]>
  (<[lit "/srv/site/blog" := Dir [lit "migrations"] []]>
  (<[lit "/srv/site" := Dir [lit "blog"] []]>
  (<[lit "/srv" := Dir [lit "site"] []]> ∅))))).

Definition site_world : world := {| fs := site_fs; store := []; trace := [] |}.

(** The same project deployed at [/srv/my.site]: a directory name with a
    dot in it. *)
Definition dotted_settings : settings :=
  {| BASE_DIR := lit "/srv/my.site";
     INSTALLED_APPS := [lit "django.contrib.admin"; lit "blog"] |}.

Definition dotted_fs : gmap text node :=
  <[lit "/srv/my.site/blog/migrations/0001_initial.py" := File migration_text]>
  (<[lit "/srv/my.site/blog/migrations/__init__.py" := File []]>
  (<[lit "/srv/my.site/blog/migrations" := Dir [] [lit "__init__.py"; lit "0001_initial.py"]]>
  (<[lit "/srv/my.site/blog" := Dir [lit "migrations"] []]>
  (<[lit "/srv/my.site" := Dir [lit "blog"] []]>
  (<[lit "/srv" := Dir [lit "my.site"] []]> ∅))))).

Definition dotted_world : world := {| fs := dotted_fs; store := []; trace := [] |}.

Local Close Scope string_scope.

(** The key and the value [get_app_migrations_dir] enters for an installed
    application: its path and the migrations directory below it. *)
Definition app_path_of (app : text) : text := join_with [c_slash] (split c_dot app).

Definition migrations_dir_of (cfg : settings) (app_path : text) : text :=
  path_join (path_join (BASE_DIR cfg) app_path) migrations_dir_name.

Local Open Scope string_scope.

(** A table that already holds a row for the migration of [site_world],
    stored when the file was still empty. *)
Definition stale_row : MigrationsHistory :=
  {| app_name := lit "blog";
     file_name := lit "/srv/site/blog/migrations/0001_initial";
     file_content := lit "[]" |}.

Definition stale_world : world := {| fs := site_fs; store := [stale_row]; trace := [] |}.

Local Close Scope string_scope.

(** A command that leaves the table as it found it, however it ends. *)
Definition keeps_store {A} (m : M A) : Prop := forall w, store (snd (m w)) = store w.



Definition no_dot (n : text) : bool := forallb (fun c => negb (c =? c_dot)) n.

(** [name.endswith(suffix)]. *)
Definition ends_with (suffix name : text) : bool :=
  bool_decide (drop (length name - length suffix) name = suffix).

(** The extension of a file name in the sense of [os.path.splitext], which
    is how the specification speaks of it: what follows the last dot of the
    name, when a character other than a dot comes before that dot. *)
Definition file_extension (name : text) : option text :=
  let parts := split c_dot name in
  if existsb (fun p => match p with [] => false | _ :: _ => true end) (removelast parts)
  then Some (last_part parts)
  else None.

Local Open Scope string_scope.

(** What the specification has [get_app_migrations_file] return for a
    directory [path] that lists [names] and among them [__init__.py]: the
    files other than [__init__.py] whose extension is not [pyc], each joined
    with the directory path. *)
Definition files_as_stated (path : text) (names : list text) : list text :=
  map (path_join path)
    (List.filter
       (fun name => negb (bool_decide (name = lit "__init__.py"))
                    && negb (bool_decide (file_extension name = Some (lit "pyc"))))
       names).

(** A migrations directory that also holds a file named [pyc] and a file
    named [.pyc]. *)
Definition pyc_world : world :=
  {| fs := <[lit "/srv/site/blog/migrations" :=
               Dir [] [lit "__init__.py"; lit "pyc"; lit ".pyc"; lit "a.py"]]> ∅;
     store := []; trace := [] |}.



Local Close Scope string_scope.

(** ** Python values and helpers of the remaining modules *)

(** The code points of a literal written in UTF-8, for the literals of the
    source that are not ASCII. *)
Fixpoint utf8_decode_from (pending : nat) (acc : N) (bytes : list N) : text :=
  match bytes with
  | [] => []
  | b :: rest =>
      match pending with
      | O =>
          if b <? 128 then b :: utf8_decode_from 0 0 rest
          else if b <? 224 then utf8_decode_from 1 (N.land b 31) rest
          else if b <? 240 then utf8_decode_from 2 (N.land b 15) rest
          else utf8_decode_from 3 (N.land b 7) rest
      | S O => N.lor (N.shiftl acc 6) (N.land b 63) :: utf8_decode_from 0 0 rest
      | S p => utf8_decode_from p (N.lor (N.shiftl acc 6) (N.land b 63)) rest
      end
  end.

Definition utf8 (s : string) : text := utf8_decode_from 0 0 (lit s).

(** [str(n)] for an [int]. *)
Definition str_of_int (z : Z) : text := lit (NilZero.string_of_int (Z.to_int z)).

(** The values that travel through the views: [None], booleans, integers,
    strings, lists, string-keyed dictionaries in insertion order, and
    objects known only by their identity. *)
Inductive pyval :=
| PNone
| PBool (b : bool)
| PInt (z : Z)
| PStr (s : text)
| PList (l : list pyval)
| PDict (d : list (text * pyval))
| PObj (id : N).

(** [bool(v)], as [if v:] and [not v] test it. *)
Definition truthy (v : pyval) : bool :=
  match v with
  | PNone => false
  | PBool b => b
  | PInt z => negb (z =? 0)%Z
  | PStr s => match s with [] => false | _ => true end
  | PList l => match l with [] => false | _ => true end
  | PDict d => match d with [] => false | _ => true end
  | PObj _ => true
  end.

(** [v is None] and [v is False]. *)
Definition is_None (v : pyval) : bool := match v with PNone => true | _ => false end.
Definition is_False (v : pyval) : bool := match v with PBool false => true | _ => false end.

(** [v == s] for a string literal [s]. *)
Definition eq_str (v : pyval) (s : text) : bool :=
  match v with PStr t => bool_decide (t = s) | _ => false end.

(** [len(v)], which only sized values have. *)
Definition py_len (v : pyval) : option nat :=
  match v with
  | PStr s => Some (length s)
  | PList l => Some (length l)
  | PDict d => Some (length d)
  | _ => None
  end.

(** An exception in flight: the name of its class, [str(e)], and whether the
    class derives from [Exception] (what [except Exception] catches). *)
Record exc := {
  exc_class : text;
  exc_text : text;
  exc_is_Exception : bool
}.

Inductive result (A : Type) :=
| Ok (a : A)
| Err (e : exc).
Arguments Ok {A} a.
Arguments Err {A} e.

Definition AttributeError (msg : text) : exc :=
  {| exc_class := lit "AttributeError"; exc_text := msg; exc_is_Exception := true |}.
Definition TypeError (msg : text) : exc :=
  {| exc_class := lit "TypeError"; exc_text := msg; exc_is_Exception := true |}.
Definition NameError (msg : text) : exc :=
  {| exc_class := lit "NameError"; exc_text := msg; exc_is_Exception := true |}.

(** [d.get(k)] on a dictionary kept in insertion order. *)
Fixpoint assoc_get {V} (d : list (text * V)) (k : text) : option V :=
  match d with
  | [] => None
  | (k', v) :: d' => if bool_decide (k' = k) then Some v else assoc_get d' k
  end.

(** [d[k] = v]. *)
Fixpoint assoc_set {V} (k : text) (v : V) (d : list (text * V)) : list (text * V) :=
  match d with
  | [] => [(k, v)]
  | (k', v') :: d' =>
      if bool_decide (k' = k) then (k, v) :: d' else (k', v') :: assoc_set k v d'
  end.

(** ** [app/utils/formatter.py] *)

Definition colors : list (text * Z) :=
  [ (lit "black", 30%Z); (lit "red", 31%Z); (lit "green", 32%Z); (lit "yellow", 33%Z);
    (lit "blue", 34%Z); (lit "pink", 35%Z); (lit "cyan", 36%Z); (lit "white", 37%Z) ].

Definition bgcolors : list (text * Z) :=
  [ (lit "black", 40%Z); (lit "red", 41%Z); (lit "green", 42%Z); (lit "yellow", 43%Z);
    (lit "blue", 44%Z); (lit "pink", 45%Z); (lit "cyan", 46%Z); (lit "white", 47%Z) ].

Definition displays : list (text * Z) :=
  [ (utf8 "终端默认", 0%Z); (utf8 "高亮", 1%Z); (utf8 "非高亮", 22%Z);
    (utf8 "下划线", 4%Z); (utf8 "去下划线", 24%Z); (utf8 "闪烁", 5%Z);
    (utf8 "去闪烁", 25%Z); (utf8 "反白", 7%Z); (utf8 "非反白", 27%Z);
    (utf8 "不可见", 8%Z); (utf8 "可见", 28%Z) ].

(** [d.get(k, default)] as [str.format] renders it: the decimal digits of
    the code found, or the default, which the source gives as a name. *)
Definition get_formatted (d : list (text * Z)) (k default : text) : text :=
  match assoc_get d k with
  | Some code => str_of_int code
  | None => default
  end.

Definition c_esc : N := 27.

(** [output_formatter(message, color, bgcolor, display)]. *)
Definition output_formatter (message color bgcolor display : text) : text :=
  c_esc :: lit "["
  ++ get_formatted displays display (utf8 "终端默认") ++ lit ";"
  ++ get_formatted colors color (lit "green") ++ lit ";"
  ++ get_formatted bgcolors bgcolor (lit "black") ++ lit "m"
  ++ message ++ c_esc :: lit "[0m".

(** The defaults of the keyword arguments. *)
Definition default_color : text := lit "green".
Definition default_bgcolor : text := lit "black".
Definition default_display : text := utf8 "高亮".

(** ** [app/management/base.py] *)

(** What a lookup on an instance finds under a name, as far as [handle] can
    tell: something that runs when called without argument, and then ends as
    the action does or with an exception of its own, or anything else, which
    a call without argument rejects with [TypeError]. *)
Inductive value :=
| Callable (run : world -> result (outcome unit) * world)
| NotCallable.

(** What [getattr] finds under a name on the class: an attribute of the
    class or of one of its bases, which its instances have too, or an
    attribute of the metaclass ([mro], [__subclasses__], [__bases__], ...),
    which the class answers for and its instances do not. *)
Inductive attr :=
| Plain (v : value)
| OfMetaclass.

(** A command class: the name of its argument, the actions it declares,
    every attribute [getattr] can find on the class, its own before the
    inherited, and the attributes [__init__] sets on an instance. *)
Record command_class := {
  action : text;
  action_choice : list text;
  attributes : list (text * attr);
  instance_attributes : list (text * value)
}.

(** [getattr(cls, name)], the lookup [__new__] makes. *)
Definition getattr (cls : command_class) (name : text) : option attr :=
  assoc_get (attributes cls) name.

(** [getattr(self, name)], the lookup [handle] makes: the attributes of the
    instance first, then those of the class, the metaclass left out. *)
Definition getattr_instance (cls : command_class) (name : text) : option value :=
  match assoc_get (instance_attributes cls) name with
  | Some v => Some v
  | None =>
      match assoc_get (attributes cls) name with
      | Some (Plain v) => Some v
      | Some OfMetaclass => None
      | None => None
      end
  end.

(** The [error_list] of [__new__]: the declared actions that name no
    attribute, in the order of declaration. *)
Definition error_list (cls : command_class) : list text :=
  List.filter (fun choice => match getattr cls choice with None => true | Some _ => false end)
    (action_choice cls).

(** [__new__]: an instance, or the [AttributeError] raised for the
    undefined actions (its message is the formatted [error_list]). *)
Inductive construction :=
| Instance (cls : command_class)
| UndefinedActions (missing : list text).

Definition new (cls : command_class) : construction :=
  if (0 <? length (error_list cls))%nat then UndefinedActions (error_list cls)
  else Instance cls.

(** How [handle] ends: the action ran and ended as [o], the action ran and
    raised [e], the lookup of the action failed with [AttributeError], or
    the lookup or the call was rejected with [TypeError]. *)
Inductive handled :=
| Ran (o : outcome unit)
| Raised (e : exc)
| HandleAttributeError
| HandleTypeError.

(** [handle]: [options.get(self.action)] is [None] when the
    option is missing, and [getattr] rejects it with [TypeError]. *)
Definition handle (cls : command_class) (options : list (text * text))
  : world -> handled * world :=
  fun w =>
    match assoc_get options (action cls) with
    | None => (HandleTypeError, w)
    | Some a =>
        match getattr_instance cls a with
        | None => (HandleAttributeError, w)
        | Some NotCallable => (HandleTypeError, w)
        | Some (Callable run) =>
            let '(r, w') := run w in
            (match r with Ok o => Ran o | Err e => Raised e end, w')
        end
    end.

(** A method whose body is [m]. *)
Definition method (m : M unit) : value :=
  Callable (fun w => let '(o, w') := m w in (Ok o, w')).

(** [syncmigrate.Command]: its own attributes, then those it inherits; on
    an instance, the three attributes [BaseCommand.__init__] sets. *)
Definition syncmigrate_command (cfg : settings) (inherited : list (text * attr))
  : command_class :=
  {| action := lit "action";
     action_choice := [lit "save"; lit "load"; lit "initial"];
     attributes :=
       [ (lit "help_info", Plain NotCallable);
         (lit "action_choice", Plain NotCallable);
         (lit "migrations_dir_name", Plain NotCallable);
         (lit "get_app_migrations_dir",
          Plain (method (get_app_migrations_dir cfg ;;; ret tt)));
         (lit "get_app_migrations_file", Plain NotCallable);
         (lit "save", Plain (method (save cfg)));
         (lit "load", Plain (method (load cfg)));
         (lit "initial", Plain (method initial)) ] ++ inherited;
     instance_attributes :=
       [ (lit "stdout", NotCallable);
         (lit "stderr", NotCallable);
         (lit "style", NotCallable) ] |}.


(** ** [app/serializers.py] *)

(** A [salt] is a string or an integer; an f-string renders it with [str]. *)
Inductive salt_value :=
| SaltStr (s : text)
| SaltInt (z : Z).

Definition str_of_salt (salt : salt_value) : text :=
  match salt with
  | SaltStr s => s
  | SaltInt z => str_of_int z
  end.

Definition c_dash : N := 45.

(** [_pack_uniq_key(key, salt)]. *)
Definition _pack_uniq_key (key : text) (salt : salt_value) : text :=
  key ++ c_dash :: str_of_salt salt.

(** [set_cache(key, obj, salt)] on the dictionary [context], which is an
    attribute of the class and so the same for every serializer. *)
Definition set_cache (key : text) (obj : pyval) (salt : salt_value)
    (context : gmap text pyval) : gmap text pyval :=
  <[_pack_uniq_key key salt := obj]> context.

(** [get_cache(key, salt)]. *)
Definition get_cache (key : text) (salt : salt_value) (context : gmap text pyval)
  : bool * pyval :=
  match context !! _pack_uniq_key key salt with
  | None => (false, PNone)
  | Some value => if is_None value then (false, PNone) else (true, value)
  end.

Definition no_dash (s : text) : bool := forallb (fun c => negb (c =? c_dash)) s.

(** ** The response envelope ([BasicResponseMixin]) *)

(** A DRF [Response] or a Django [HttpResponse]: its body and its status. *)
Record Response := {
  resp_data : pyval;
  status_code : Z
}.

Definition HTTP_200_OK : Z := 200.
Definition HTTP_201_CREATED : Z := 201.
Definition HTTP_400_BAD_REQUEST : Z := 400.
Definition HTTP_401_UNAUTHORIZED : Z := 401.
Definition HTTP_403_FORBIDDEN : Z := 403.

Definition main_body : list (text * pyval) :=
  [ (lit "result", PStr []); (lit "total", PInt 0);
    (lit "extra", PDict []); (lit "data", PStr []) ].

(** [set_response(result, data, extra, status)]; a keyword left out is passed
    as its default ([None] for [data] and [extra]). *)
Definition set_response (result data extra : pyval) (status : Z) : Response :=
  let response := main_body in
  let response := assoc_set (lit "result") result response in
  let response := assoc_set (lit "data") (if is_None data then PDict [] else data) response in
  let response := assoc_set (lit "extra") (if is_None extra then PDict [] else extra) response in
  let response :=
    assoc_set (lit "total")
      (PInt (match data with PList l => Z.of_nat (length l) | _ => 0%Z end)) response in
  {| resp_data := PDict response; status_code := status |}.

(** [set_extra(key, value)]: [extra_data] is an attribute of the class, one
    dictionary shared by every view that derives from the mixin. *)
Definition set_extra (key : text) (value : pyval) (extra_data : list (text * pyval))
  : list (text * pyval) :=
  assoc_set key value extra_data.

(** [set_json(data)], given the shared [extra_data] and the view's
    [_total_count]; [len(data)] fails on a value that has no length. *)
Definition set_json (extra_data : list (text * pyval)) (_total_count : Z) (data : pyval)
  : result pyval :=
  match py_len data with
  | None => Err (TypeError (lit "object has no len()"))
  | Some n =>
      Ok (PDict
            [ (lit "code", PInt 0);
              (lit "msg", PStr (match n with O => utf8 "暂无数据" | S _ => lit "Success" end));
              (lit "count", PInt _total_count);
              (lit "data", data);
              (lit "extra", PDict extra_data) ])
  end.

(** ** [app/views.py]: [BasicChoiceListViewSet.get] *)

(** The loop over [enumerate(self.choice)], from index [i] on. *)
Fixpoint choice_data (i : Z) (choice : list (pyval * pyval)) : list pyval :=
  match choice with
  | [] => []
  | (value, label) :: rest =>
      PDict [ (lit "id", PInt i); (lit "label", label); (lit "value", value) ]
      :: choice_data (i + 1) rest
  end.

Definition choice_get (choice : list (pyval * pyval)) : Response :=
  set_response (PStr (lit "success")) (PList (choice_data 0 choice)) PNone HTTP_200_OK.

(** ** [BasicCommonViewMixin._clear_query_params] *)

Definition c_blank : N := 32.

(** [s.lstrip(' ')] and [s.rstrip(' ')]. *)
Fixpoint lstrip_blank (s : text) : text :=
  match s with
  | c :: s' => if c =? c_blank then lstrip_blank s' else s
  | [] => []
  end.

Fixpoint rstrip_blank (s : text) : text :=
  match s with
  | [] => []
  | c :: s' =>
      match rstrip_blank s' with
      | [] => if c =? c_blank then [] else [c]
      | r => c :: r
      end
  end.

(** [_clear_query_params(value)].  [illegal] is
    [params.QUERY_STRING_ILLEGAL_VALUE]: [None] when the module [params] has
    no such attribute, and reading it then raises [AttributeError]. *)
Definition _clear_query_params (illegal : option pyval) (value : pyval) : result pyval :=
  match value with
  | PStr s =>
      let s := lstrip_blank (rstrip_blank s) in
      let cleaned :=
        if bool_decide (s = lit "undefined") || bool_decide (s = lit "null") then
          match illegal with
          | Some v => Ok v
          | None => Err (AttributeError (lit "module 'app.params' has no attribute 'QUERY_STRING_ILLEGAL_VALUE'"))
          end
        else Ok (PStr s) in
      match cleaned with
      | Err e => Err e
      | Ok v =>
          let v := if eq_str v (lit "true") then PBool true else v in
          let v := if eq_str v (lit "false") then PBool false else v in
          let v := if eq_str v (lit "None") then PNone else v in
          Ok v
      end
  | _ => Ok value
  end.

(** ** The transaction-wrapped flows of [app/mixin/views.py] *)

(** What a flow can change: the database, the mark [transaction.set_rollback]
    puts on the running transaction, and what has been handed to
    [logger.error] (the template of the f-string and the values it
    interpolates). *)
Record vstate (DB : Type) := {
  db : DB;
  needs_rollback : bool;
  logged : list (text * list pyval)
}.
Arguments db {DB} _.
Arguments needs_rollback {DB} _.
Arguments logged {DB} _.

(** A step of a flow: it ends with a value or with an exception, and the
    state it leaves is kept either way. *)
Definition V (DB A : Type) : Type := vstate DB -> result A * vstate DB.

Definition vret {DB A} (a : A) : V DB A := fun s => (Ok a, s).
Definition vraise {DB A} (e : exc) : V DB A := fun s => (Err e, s).
Definition vbind {DB A B} (m : V DB A) (k : A -> V DB B) : V DB B :=
  fun s => match m s with
           | (Ok a, s') => k a s'
           | (Err e, s') => (Err e, s')
           end.

Notation "x <~ m ;; k" := (vbind m (fun x => k))
  (at level 100, m at next level, right associativity).
Notation "m ~;; k" := (vbind m (fun _ => k))
  (at level 100, right associativity).

(** [transaction.set_rollback(True)]. *)
Definition set_rollback {DB} : V DB unit :=
  fun s => (Ok tt, {| db := db s; needs_rollback := true; logged := logged s |}).

(** [logger.error(...)].  The module imports no [logger] and defines none:
    [logger_bound] tells whether the name is bound when the flow runs, and
    the call raises [NameError] when it is not. *)
Definition logger_error {DB} (logger_bound : bool) (template : text) (args : list pyval)
  : V DB unit :=
  fun s =>
    if logger_bound then
      (Ok tt, {| db := db s; needs_rollback := needs_rollback s;
                 logged := logged s ++ [(template, args)] |})
    else (Err (NameError (lit "name 'logger' is not defined")), s).

(** [try: body / except Exception as error: handler]. *)
Definition try_except {DB A} (body : V DB A) (handler : exc -> V DB A) : V DB A :=
  fun s => match body s with
           | (Ok a, s') => (Ok a, s')
           | (Err e, s') => if exc_is_Exception e then handler e s' else (Err e, s')
           end.

(** [@transaction.atomic()]: the body runs in a fresh transaction, which is
    rolled back when the body raises or leaves it marked, and committed
    otherwise.  The state returned keeps the mark as the body left it. *)
Definition atomic {DB A} (body : V DB A) : V DB A :=
  fun s =>
    match body {| db := db s; needs_rollback := false; logged := logged s |} with
    | (Ok a, s') =>
        (Ok a, if needs_rollback s'
               then {| db := db s; needs_rollback := true; logged := logged s' |}
               else s')
    | (Err e, s') =>
        (Err e, {| db := db s; needs_rollback := needs_rollback s'; logged := logged s' |})
    end.

Definition HTTP_SUCCESS : text := lit "Success".

(** The three statements every flow repeats when a step reports an error. *)
Definition reject {DB} (logger_bound : bool) (error reason : pyval) : V DB Response :=
  set_rollback ~;;
  logger_error logger_bound (utf8 "请求异常：{error}, {reason}") [error; reason] ~;;
  vret (set_response error reason PNone HTTP_400_BAD_REQUEST).

(** The statements of an [except Exception as error] branch: the mark, the
    log, and an answer made of a fixed result and of a text that ends with
    [str(error)]. *)
Definition failed {DB} (logger_bound : bool) (result prefix : text) (status : Z) (error : exc)
  : V DB Response :=
  set_rollback ~;;
  logger_error logger_bound (utf8 "请求异常：{error}") [PStr (exc_text error)] ~;;
  vret (set_response (PStr result) (PStr (prefix ++ exc_text error)) PNone status).

(** The statements of a branch taken when the serializer is not valid. *)
Definition invalid {DB} (logger_bound : bool) (result prefix errors : text) : V DB Response :=
  set_rollback ~;;
  logger_error logger_bound (prefix ++ lit "{serializer.errors}") [PStr errors] ~;;
  vret (set_response (PStr result) (PStr (prefix ++ errors)) PNone HTTP_400_BAD_REQUEST).

(** The loop of [_pre_process_list] and of the bulk [_pre_process_create]:
    the first name of [check] for which [get] gives [None] is reported. *)
Fixpoint first_missing (check : list text) (get : text -> pyval) : option text :=
  match check with
  | [] => None
  | name :: rest => if is_None (get name) then Some name else first_missing rest get
  end.

Module BasicListModelMixin.

(** [_pre_process_list], [query_params_get] being [request.query_params.get]. *)
Definition _pre_process_list (query_string_check : list text)
    (query_params_get : text -> pyval) : pyval * pyval :=
  match first_missing query_string_check query_params_get with
  | Some name =>
      (PStr (lit "Query String " ++ name ++ lit " is required"),
       PStr (utf8 "查询字符串 " ++ name ++ utf8 " 为必传字段"))
  | None => (PNone, PStr [])
  end.

(** [int(v)] for what [query_params.get] gives: a string, which [py_int]
    parses as [int] does, or [None], which [int] rejects. *)
Definition int_of (py_int : text -> result Z) (v : option text) : result Z :=
  match v with
  | Some s => py_int s
  | None => Err (TypeError (lit "int() argument must be a string or a real number"))
  end.

Definition negative_indexing : exc :=
  {| exc_class := lit "ValueError";
     exc_text := lit "Negative indexing is not supported.";
     exc_is_Exception := true |}.

(** [query_set[start:stop]] for a [QuerySet] that [len] has evaluated:
    a negative bound is refused, the rest is the slice of the rows. *)
Definition slice {R} (start stop : Z) (query_set : list R) : result (list R) :=
  if (start <? 0)%Z || (stop <? 0)%Z then Err negative_indexing
  else Ok (take (Z.to_nat (stop - start)) (drop (Z.to_nat start) query_set)).

(** The truth value of what [query_params.get] gives. *)
Definition given (v : option text) : bool :=
  match v with
  | Some (_ :: _) => true
  | _ => false
  end.

(** [paginate], on the filtered rows; [self._total_count] is set to their
    number before anything can fail. *)
Definition paginate {R} (py_int : text -> result Z) (page limit paginate_disable : option text)
    (query_set : list R) : result (list R) :=
  let total_count := Z.of_nat (length query_set) in
  match paginate_disable with
  | Some _ => Ok query_set
  | None =>
      if negb (given page || given limit) then Ok query_set
      else
        match int_of py_int page with
        | Err e => Err e
        | Ok p =>
            match int_of py_int limit with
            | Err e => Err e
            | Ok l =>
                let start := ((p - 1) * l)%Z in
                let stop := (p * l)%Z in
                if (start >=? total_count)%Z then slice 0 l query_set
                else slice start stop query_set
            end
        end
  end.

Definition lift {DB A} (r : result A) : V DB A := fun s => (r, s).

Section PerformList.
Context {DB R : Type}.
Variable py_int : text -> result Z.
(** [self.filter_queryset(self.get_queryset())], as [len] evaluates it. *)
Variable filter_queryset : V DB (list R).
(** [serializer(query_set, many=True).data]. *)
Variable serialize : list R -> V DB pyval.
Variable extra_data : list (text * pyval).
Variables page limit paginate_disable : option text.

Definition _perform_list : V DB Response :=
  query_set <~ filter_queryset ;;
  rows <~ lift (paginate py_int page limit paginate_disable query_set) ;;
  data <~ serialize rows ;;
  json_data <~ lift (set_json extra_data (Z.of_nat (length query_set)) data) ;;
  vret {| resp_data := json_data; status_code := HTTP_200_OK |}.
End PerformList.

Section List.
Context {DB : Type}.
Variable logger_bound : bool.
Variable _pre_process_list : V DB (pyval * pyval).
Variable _perform_list : V DB Response.
Variable _post_process_list : Response -> V DB (pyval * pyval * Response).

Definition list_body : V DB Response :=
  er <~ _pre_process_list ;;
  let '(error, reason) := er in
  if truthy error then reject logger_bound error reason
  else
    r <~ try_except
           (response <~ _perform_list ;; vret (inr response))
           (fun error =>
              resp <~ failed logger_bound (lit "Failed to get model list")
                        (utf8 "获取资源数据列表失败,错误信息为") HTTP_400_BAD_REQUEST error ;;
              vret (inl resp)) ;;
    match r with
    | inl resp => vret resp
    | inr response =>
        err <~ _post_process_list response ;;
        let '(error, reason, response) := err in
        if truthy error then reject logger_bound error reason
        else vret response
    end.

Definition list : V DB Response := atomic list_body.
End List.

End BasicListModelMixin.

Module BasicRetrieveModelMixin.
Section Retrieve.
Context {DB I : Type}.
Variable logger_bound : bool.
Variable _pre_process_retrieve : V DB (pyval * pyval).
Variable get_object : V DB I.
Variable _perform_retrieve : I -> V DB (pyval * pyval * Response).
Variable _post_process_retrieve : I -> V DB (pyval * pyval).

Definition retrieve_body : V DB Response :=
  er <~ _pre_process_retrieve ;;
  let '(error, reason) := er in
  if truthy error then reject logger_bound error reason
  else
    instance <~ get_object ;;
    err <~ _perform_retrieve instance ;;
    let '(error, reason, response) := err in
    if truthy error then reject logger_bound error reason
    else
      er <~ _post_process_retrieve instance ;;
      let '(error, reason) := er in
      if truthy error then reject logger_bound error reason
      else vret response.

Definition retrieve : V DB Response := atomic retrieve_body.
End Retrieve.
End BasicRetrieveModelMixin.

(** [create] reads the same in [BasicBulkCreateModelMixin] and in
    [BasicCreateModelMixin]; the two classes differ in the hooks. *)
Module BasicCreateModelMixin.

(** [_pre_process_create] of the bulk mixin, [data_get] being
    [request.data.get]. *)
Definition bulk_pre_process_create (data_field_check : list text)
    (data_get : text -> pyval) : pyval * pyval :=
  match first_missing data_field_check data_get with
  | Some field =>
      (PStr (lit "field " ++ field ++ lit " is required"),
       PStr (utf8 "字段 " ++ field ++ utf8 " 为必填字段"))
  | None => (PNone, PStr [])
  end.

Section Create.
Context {DB S I : Type}.
Variable logger_bound : bool.
Variable _pre_process_create : V DB (pyval * pyval).
Variable _pre_validate_create : V DB (pyval * pyval).
Variable get_serializer : V DB S.
Variable is_valid : S -> V DB bool.
Variable errors : S -> text.
Variable _perform_create : S -> V DB I.
Variable _post_process_create : I -> V DB (pyval * pyval).

Definition create_body : V DB Response :=
  er <~ _pre_process_create ;;
  let '(error, reason) := er in
  if truthy error then reject logger_bound error reason
  else
    er <~ _pre_validate_create ;;
    let '(error, reason) := er in
    if truthy error then reject logger_bound error reason
    else
      serializer <~ get_serializer ;;
      valid <~ is_valid serializer ;;
      if negb valid then
        invalid logger_bound (lit "serializer is invalid") (utf8 "序列化器校验失败:")
          (errors serializer)
      else
        r <~ try_except
               (instances <~ _perform_create serializer ;; vret (inr instances))
               (fun error =>
                  resp <~ failed logger_bound (lit "Failed to create models")
                            (utf8 "执行创建失败,错误信息为:") HTTP_400_BAD_REQUEST error ;;
                  vret (inl resp)) ;;
        match r with
        | inl resp => vret resp
        | inr instances =>
            er <~ _post_process_create instances ;;
            let '(error, reason) := er in
            if truthy error then reject logger_bound error reason
            else vret (set_response (PStr HTTP_SUCCESS) (PStr (utf8 "创建成功")) PNone
                         HTTP_201_CREATED)
        end.

Definition create : V DB Response := atomic create_body.
End Create.
End BasicCreateModelMixin.

Module BasicBulkUpdateModelMixin.
Section Update.
Context {DB I : Type}.
Variable logger_bound : bool.
Variable _pre_process_update : V DB (pyval * pyval).
Variable _validate_update : V DB (pyval * pyval).
Variable _perform_update : V DB (pyval * pyval * I).
Variable _post_process_update : I -> V DB (pyval * pyval).

Definition update_body : V DB Response :=
  er <~ _pre_process_update ;;
  let '(error, reason) := er in
  if truthy error then reject logger_bound error reason
  else
    er <~ _validate_update ;;
    let '(error, reason) := er in
    if truthy error then reject logger_bound error reason
    else
      r <~ try_except
             (x <~ _perform_update ;; vret (inr x))
             (fun error =>
                resp <~ failed logger_bound (lit "Update failed")
                          (utf8 "更新失败，错误信息为:") HTTP_400_BAD_REQUEST error ;;
                vret (inl resp)) ;;
      match r with
      | inl resp => vret resp
      | inr (error, reason, instances) =>
          if truthy error then reject logger_bound error reason
          else
            er <~ _post_process_update instances ;;
            let '(error, reason) := er in
            if truthy error then reject logger_bound error reason
            else vret (set_response (PStr HTTP_SUCCESS) (PStr (utf8 "批量更新成功")) PNone
                         HTTP_200_OK)
      end.

Definition update : V DB Response := atomic update_body.
End Update.
End BasicBulkUpdateModelMixin.

Module BasicUpdateModelMixin.
Section Update.
Context {DB S I : Type}.
Variable logger_bound : bool.
Variable _pre_process_update : V DB (pyval * pyval).
Variable _validate_update : V DB (pyval * pyval).
Variable get_object : V DB I.
(** [request.query_params.get('partial')]. *)
Variable partial : pyval.
Variable _perform_partial_update : I -> V DB (pyval * pyval).
Variable get_serializer : I -> V DB S.
Variable is_valid : S -> V DB bool.
Variable errors : S -> text.
Variable _perform_update : S -> V DB (pyval * pyval).
Variable _post_process_update : I -> V DB (pyval * pyval).

(** The two branches of the update proper: an answer that ends the
    flow, or nothing, and the flow goes on. *)
Definition perform (instance : I) : V DB (Response + unit) :=
  if negb (is_None partial) then
    er <~ _perform_partial_update instance ;;
    let '(error, reason) := er in
    if truthy error then resp <~ reject logger_bound error reason ;; vret (inl resp)
    else vret (inr tt)
  else
    serializer <~ get_serializer instance ;;
    valid <~ is_valid serializer ;;
    if negb valid then
      resp <~ invalid logger_bound (lit "Serializer validate failed")
                (utf8 "序列化器校验失败，错误信息为:") (errors serializer) ;;
      vret (inl resp)
    else
      r <~ try_except
             (er <~ _perform_update serializer ;; vret (inr er))
             (fun error =>
                resp <~ failed logger_bound (lit "Update failed")
                          (utf8 "更新失败，错误信息为:") HTTP_400_BAD_REQUEST error ;;
                vret (inl resp)) ;;
      match r with
      | inl resp => vret (inl resp)
      | inr (error, reason) =>
          if truthy error then resp <~ reject logger_bound error reason ;; vret (inl resp)
          else vret (inr tt)
      end.

Definition update_body : V DB Response :=
  er <~ _pre_process_update ;;
  let '(error, reason) := er in
  if truthy error then reject logger_bound error reason
  else
    er <~ _validate_update ;;
    let '(error, reason) := er in
    if truthy error then reject logger_bound error reason
    else
      instance <~ get_object ;;
      r <~ perform instance ;;
      match r with
      | inl resp => vret resp
      | inr _ =>
          er <~ _post_process_update instance ;;
          let '(error, reason) := er in
          if truthy error then reject logger_bound error reason
          else vret (set_response (PStr HTTP_SUCCESS) (PStr (utf8 "更新成功")) PNone
                       HTTP_200_OK)
      end.

Definition update : V DB Response := atomic update_body.
End Update.
End BasicUpdateModelMixin.

(** [destroy] reads the same in [BasicBulkDestroyModelMixin] and in
    [BasicDestroyModelMixin], but for the call that fetches what is to be
    deleted ([get_delete_instances] or [get_object]). *)
Module BasicDestroyModelMixin.
Section Destroy.
Context {DB Q I : Type}.
Variable logger_bound : bool.
Variable _pre_process_delete : V DB (pyval * pyval).
Variable _validate_delete : V DB (pyval * pyval).
Variable get_instances : V DB Q.
Variable _perform_delete : Q -> V DB (pyval * pyval * I).
Variable _post_process_delete : I -> V DB (pyval * pyval).

Definition destroy_body : V DB Response :=
  er <~ _pre_process_delete ;;
  let '(error, reason) := er in
  if truthy error then reject logger_bound error reason
  else
    er <~ _validate_delete ;;
    let '(error, reason) := er in
    if truthy error then reject logger_bound error reason
    else
      insts <~ get_instances ;;
      r <~ try_except
             (x <~ _perform_delete insts ;; vret (inr x))
             (fun error =>
                resp <~ failed logger_bound (lit "Delete failed")
                          (utf8 "删除失败，错误信息为:") HTTP_400_BAD_REQUEST error ;;
                vret (inl resp)) ;;
      match r with
      | inl resp => vret resp
      | inr (error, reason, instances) =>
          if truthy error then
            logger_error logger_bound (utf8 "请求异常：{error}, {reason}") [error; reason] ~;;
            vret (set_response error reason PNone HTTP_400_BAD_REQUEST)
          else
            er <~ _post_process_delete instances ;;
            let '(error, reason) := er in
            if truthy error then reject logger_bound error reason
            else vret (set_response (PStr HTTP_SUCCESS) (PStr (utf8 "删除成功")) PNone
                         HTTP_200_OK)
      end.

Definition destroy : V DB Response := atomic destroy_body.
End Destroy.
End BasicDestroyModelMixin.

(** [extra], the flow behind [patch].  [BasicBulkPatchModelMixin] and
    [BasicPatchModelMixin] differ in the call that fetches the target and in
    one statement: the single-resource flow does not log an error its
    post-processing reports ([post_logs] is [false] there). *)
Module BasicPatchModelMixin.
Section Extra.
Context {DB Q : Type}.
Variable logger_bound : bool.
Variable post_logs : bool.
Variable _pre_process_patch : V DB (pyval * pyval).
Variable _validate_patch : V DB (pyval * pyval).
Variable get_target : V DB Q.
Variable _perform_patch : Q -> V DB (pyval * pyval * Response).
Variable _post_process_patch : Q -> V DB (pyval * pyval).

Definition extra_body : V DB Response :=
  er <~ _pre_process_patch ;;
  let '(error, reason) := er in
  if truthy error then reject logger_bound error reason
  else
    er <~ _validate_patch ;;
    let '(error, reason) := er in
    if truthy error then reject logger_bound error reason
    else
      instances <~ get_target ;;
      r <~ try_except
             (x <~ _perform_patch instances ;;
              let '(error, reason, response) := x in
              if truthy error then resp <~ reject logger_bound error reason ;; vret (inl resp)
              else vret (inr response))
             (fun error =>
                resp <~ failed logger_bound (lit "Failed to patch")
                          (utf8 "patch请求处理失败,错误原因:") HTTP_200_OK error ;;
                vret (inl resp)) ;;
      match r with
      | inl resp => vret resp
      | inr response =>
          er <~ _post_process_patch instances ;;
          let '(error, reason) := er in
          if truthy error then
            if post_logs then reject logger_bound error reason
            else set_rollback ~;;
                 vret (set_response error reason PNone HTTP_400_BAD_REQUEST)
          else vret response
      end.

Definition extra : V DB Response := atomic extra_body.
End Extra.
End BasicPatchModelMixin.

Module BasicAuthPermissionViewMixin.

(** [check_authentication]: [fresh] is the identity of the [object()] it
    creates. *)
Definition check_authentication (authentication_enable : pyval) (fresh : N)
  : pyval * pyval :=
  if is_False authentication_enable then (PBool true, PNone)
  else (PBool true, PObj fresh).

(** [check_permission]: [is_base] is the outcome of
    [self.permission_name == permissions.PER_BASE]. *)
Definition check_permission (is_base : bool) (permission_enable : pyval) : pyval :=
  let has_perm := PBool true in
  if is_base then has_perm
  else if truthy permission_enable then has_perm
  else has_perm.

Definition HttpResponse (content : text) (status : Z) : Response :=
  {| resp_data := PStr content; status_code := status |}.

Section Dispatch.
Context {DB : Type}.
Variable check_authentication : V DB (pyval * pyval).
(** The checks and the handler see the request with its [user] set. *)
Variable check_permission : pyval -> V DB pyval.
Variable super_dispatch : pyval -> V DB Response.

Definition dispatch : V DB Response :=
  au <~ check_authentication ;;
  let '(is_auth, user) := au in
  if is_False is_auth then
    vret (HttpResponse (lit "Unauthorized") HTTP_401_UNAUTHORIZED)
  else
    has_perm <~ check_permission user ;;
    if is_False has_perm then
      vret (HttpResponse (lit "No permission") HTTP_403_FORBIDDEN)
    else super_dispatch user.
End Dispatch.

End BasicAuthPermissionViewMixin.

(** *** Postconditions *)

(** [P] holds of the value and the state [m] ends with when started in [s],
    if it ends with a value. *)
Definition post_at {DB A} (P : A -> vstate DB -> Prop) (m : V DB A) (s : vstate DB) : Prop :=
  match m s with
  | (Ok a, s') => P a s'
  | (Err _, _) => True
  end.

(** The answer is the success status [ok], or it is a 400 given with the
    transaction marked, which takes a bound [logger]. *)
Definition answered {DB} (logger_bound : bool) (ok : Z) (resp : Response) (s : vstate DB)
  : Prop :=
  status_code resp = ok
  \/ (status_code resp = HTTP_400_BAD_REQUEST /\ needs_rollback s = true
      /\ logger_bound = true).

(** The same for a step that may end the flow with an answer. *)
Definition answered_early {DB X} (logger_bound : bool) (ok : Z) (r : Response + X)
    (s : vstate DB) : Prop :=
  match r with
  | inl resp => answered logger_bound ok resp s
  | inr _ => True
  end.

(** The hooks the mixins define themselves for the steps that do nothing:
    [return None, '']. *)
Definition no_error {DB} : V DB (pyval * pyval) := vret (PNone, PStr []).

(** The state in which the body of a flow starts: the transaction [atomic]
    opens carries no mark. *)
Definition entered {DB} (s : vstate DB) : vstate DB :=
  {| db := db s; needs_rollback := false; logged := logged s |}.

(** *** A small table to run the flows on *)

(** A database that is one table, given by the identifiers of its rows. *)
Definition table_state (rows : list N) : vstate (list N) :=
  {| db := rows; needs_rollback := false; logged := [] |}.

(** Fetches every row. *)
Definition fetch_all : V (list N) (list N) := fun s => (Ok (db s), s).

(** Deletes the rows it is given, then reports an error. *)
Definition delete_and_complain (q : list N) : V (list N) (pyval * pyval * unit) :=
  fun s =>
    (Ok (PStr (lit "audit failed"), PStr (lit "the audit trail could not be written"), tt),
     {| db := List.filter (fun r => negb (bool_decide (r ∈ q))) (db s);
        needs_rollback := needs_rollback s; logged := logged s |}).

(** Deletes the rows it is given, then raises. *)
Definition delete_and_raise {A} (q : list N) : V (list N) A :=
  fun s =>
    (Err (TypeError (lit "unsupported operand")),
     {| db := List.filter (fun r => negb (bool_decide (r ∈ q))) (db s);
        needs_rollback := needs_rollback s; logged := logged s |}).

(** Finds no object. *)
Definition not_found {A} : V (list N) A :=
  vraise {| exc_class := lit "DoesNotExist";
            exc_text := lit "matching query does not exist.";
            exc_is_Exception := true |}.

(** The query parameters of a request that gives a page and nothing else. *)
Definition only_page (name : text) : pyval :=
  if bool_decide (name = lit "page") then PStr (lit "2") else PNone.

(** A reading of decimal digits, to run [paginate] on: [int] accepts these
    strings, with these values. *)
Fixpoint decimal_digits (acc : Z) (s : text) : result Z :=
  match s with
  | [] => Ok acc
  | c :: s' =>
      if (48 <=? c) && (c <=? 57) then decimal_digits (10 * acc + Z.of_N (c - 48)) s'
      else Err {| exc_class := lit "ValueError";
                  exc_text := lit "invalid literal for int() with base 10";
                  exc_is_Exception := true |}
  end.

Definition decimal_int (s : text) : result Z :=
  match s with
  | [] => Err {| exc_class := lit "ValueError";
                 exc_text := lit "invalid literal for int() with base 10";
                 exc_is_Exception := true |}
  | _ => decimal_digits 0 s
  end.

(** Serializes a row as its identifier. *)
Definition serialize_ids {DB} (rows : list N) : V DB pyval :=
  vret (PList (map (fun r => PInt (Z.of_N r)) rows)).
(** * Facts *)

(** ** The JSON codec round trip *)

Ltac div_lia := zify; Z.to_euclidean_division_equations; lia.

Lemma nibble_cases (P : N -> Prop) :
  P 0 -> P 1 -> P 2 -> P 3 -> P 4 -> P 5 -> P 6 -> P 7 -> P 8 -> P 9 ->
  P 10 -> P 11 -> P 12 -> P 13 -> P 14 -> P 15 -> forall d, d < 16 -> P d.
Proof.
  intros. 
  destruct d as [|p]; [assumption|].
  do 4 (destruct p as [p|p|]; try assumption); lia.
Qed.

Lemma hexval_hexdigit d : d < 16 -> hexval (hexdigit d) = Some d.
Proof. revert d. apply nibble_cases; reflexivity. Qed.

Lemma land15 x : N.land x 15 = x mod 16.
Proof. change 15 with (N.ones 4). rewrite N.land_ones. reflexivity. Qed.

Lemma unhex4_hex4 c :
  c < 65536 ->
  match hex4 c with
  | [a; b; x; y] => unhex4 a b x y = Some c
  | _ => False
  end.
Proof.
  intros Hc. unfold hex4, unhex4.
  rewrite !land15, !N.shiftr_div_pow2.
  change (2 ^ 12) with 4096. change (2 ^ 8) with 256. change (2 ^ 4) with 16.
  rewrite !hexval_hexdigit by (apply N.mod_lt; lia).
  f_equal.
  div_lia.
Qed.

Lemma unhex4_hex4_eq c :
  c < 65536 ->
  unhex4 (hexdigit (N.land (N.shiftr c 12) 15)) (hexdigit (N.land (N.shiftr c 8) 15))
         (hexdigit (N.land (N.shiftr c 4) 15)) (hexdigit (N.land c 15)) = Some c.
Proof. intros Hc. exact (unhex4_hex4 c Hc). Qed.

(** Scanning one u-escape that is not a high surrogate. *)
Lemma scan_u_escape c cur acc rest :
  c < 65536 -> is_high_surrogate c = false ->
  json_scan (JStr cur) acc (u_escape c ++ rest) = json_scan (JStr (cur ++ [c])) acc rest.
Proof.
  intros Hc Hs. unfold u_escape, hex4. cbn [app].
  cbn [json_scan]. 
  change (c_backslash =? c_quote) with false.
  change (c_backslash <=? 31) with false.
  change (c_backslash =? c_backslash) with true.
  change (c_u =? c_u) with true. cbn [negb].
  rewrite unhex4_hex4_eq by assumption. rewrite Hs. reflexivity.
Qed.


Lemma lor_shifted k x : x < 1024 -> N.lor (N.shiftl k 10) x = k * 1024 + x.
Proof.
  intros Hx.
  assert (Hland : N.land (N.shiftl k 10) x = 0).
  { apply N.bits_inj; intro n; rewrite N.land_spec, N.bits_0.
    destruct (N.lt_ge_cases n 10) as [Hn|Hn].
    - rewrite N.shiftl_spec_low by assumption; reflexivity.
    - rewrite (N.bits_above_log2 x n), andb_false_r; [reflexivity|].
      destruct (N.eq_dec x 0) as [->|Hx0]; [simpl; lia|].
      apply N.log2_lt_pow2; [lia|]. eapply N.lt_le_trans; [exact Hx|].
      change 1024 with (2^10). apply N.pow_le_mono_r; lia. }
  rewrite <- N.lxor_lor by exact Hland.
  rewrite <- N.add_nocarry_lxor by exact Hland.
  rewrite N.shiftl_mul_pow2. reflexivity.
Qed.

Lemma land1023 x : N.land x 1023 = x mod 1024.
Proof. change 1023 with (N.ones 10). rewrite N.land_ones. reflexivity. Qed.

Lemma high_surrogate_of v :
  v < 1048576 -> N.lor 55296 (N.land (N.shiftr v 10) 1023) = 55296 + v / 1024.
Proof.
  intros Hv. rewrite land1023, N.shiftr_div_pow2. change (2 ^ 10) with 1024.
  rewrite N.mod_small by (apply N.Div0.div_lt_upper_bound; lia).
  change 55296 with (N.shiftl 54 10) at 1.
  rewrite lor_shifted by (apply N.Div0.div_lt_upper_bound; lia). reflexivity.
Qed.

Lemma low_surrogate_of v : N.lor 56320 (N.land v 1023) = 56320 + v mod 1024.
Proof.
  rewrite land1023. change 56320 with (N.shiftl 55 10) at 1.
  rewrite lor_shifted by (apply N.mod_lt; lia). reflexivity.
Qed.

Lemma join_surrogates v :
  v < 1048576 ->
  65536 + N.lor (N.shiftl (55296 + v / 1024 - 55296) 10) (56320 + v mod 1024 - 56320) = 65536 + v.
Proof.
  intros Hv.
  replace (55296 + v / 1024 - 55296) with (v / 1024)
    by div_lia.
  replace (56320 + v mod 1024 - 56320) with (v mod 1024)
    by div_lia.
  rewrite lor_shifted by (apply N.mod_lt; lia).
  f_equal. div_lia.
Qed.

Lemma scan_surrogate_pair c cur acc rest :
  65536 <= c -> c < 1114112 ->
  json_scan (JStr cur) acc
    (u_escape (N.lor 55296 (N.land (N.shiftr (c - 65536) 10) 1023))
     ++ u_escape (N.lor 56320 (N.land (c - 65536) 1023)) ++ rest)
  = json_scan (JStr (cur ++ [c])) acc rest.
Proof.
  intros Hlo Hhi.
  assert (Hv : c - 65536 < 1048576) by lia.
  rewrite high_surrogate_of by exact Hv. rewrite low_surrogate_of.
  set (v := c - 65536) in *.
  assert (Hq : v / 1024 < 1024) by (apply N.Div0.div_lt_upper_bound; lia).
  assert (Hr : v mod 1024 < 1024) by (apply N.mod_lt; lia).
  unfold u_escape, hex4. cbn [app]. cbn [json_scan].
  change (c_backslash =? c_quote) with false.
  change (c_backslash <=? 31) with false.
  change (c_backslash =? c_backslash) with true.
  change (c_u =? c_u) with true. cbn [negb andb].
  rewrite !unhex4_hex4_eq by div_lia.
  replace (is_high_surrogate (55296 + v / 1024)) with true
    by (unfold is_high_surrogate; symmetry; apply andb_true_intro; split; apply N.leb_le; div_lia).
  replace (is_low_surrogate (56320 + v mod 1024)) with true
    by (unfold is_low_surrogate; symmetry; apply andb_true_intro; split; apply N.leb_le; div_lia).
  rewrite join_surrogates by exact Hv.
  replace (65536 + v) with c by (unfold v; lia). reflexivity.
Qed.

Lemma scan_escape_char c cur acc rest :
  scalar_value c = true ->
  json_scan (JStr cur) acc (escape_char c ++ rest) = json_scan (JStr (cur ++ [c])) acc rest.
Proof.
  intros Hc. unfold scalar_value in Hc.
  apply andb_true_iff in Hc as [Hmax Hsur].
  apply N.ltb_lt in Hmax. apply negb_true_iff in Hsur.
  unfold escape_char.
  destruct (s_char c) eqn:Hs.
  - unfold s_char in Hs. repeat (apply andb_true_iff in Hs as [Hs ?]).
    cbn [app json_scan].
    replace (c =? c_quote) with false by (symmetry; apply negb_true_iff; assumption).
    replace (c <=? 31) with false by (symmetry; apply N.leb_gt; apply N.leb_le in Hs; lia).
    replace (c =? c_backslash) with false by (symmetry; apply negb_true_iff; assumption).
    reflexivity.
  - destruct (c =? c_backslash) eqn:E1; [apply N.eqb_eq in E1; subst c; reflexivity|].
    destruct (c =? c_quote) eqn:E2; [apply N.eqb_eq in E2; subst c; reflexivity|].
    destruct (c =? 8) eqn:E3; [apply N.eqb_eq in E3; subst c; reflexivity|].
    destruct (c =? 12) eqn:E4; [apply N.eqb_eq in E4; subst c; reflexivity|].
    destruct (c =? 10) eqn:E5; [apply N.eqb_eq in E5; subst c; reflexivity|].
    destruct (c =? 13) eqn:E6; [apply N.eqb_eq in E6; subst c; reflexivity|].
    destruct (c =? 9) eqn:E7; [apply N.eqb_eq in E7; subst c; reflexivity|].
    destruct (65536 <=? c) eqn:E8.
    + apply N.leb_le in E8. cbv zeta. rewrite <- app_assoc.
      apply scan_surrogate_pair; assumption.
    + apply N.leb_gt in E8. apply scan_u_escape; [assumption|].
      unfold is_high_surrogate.
      destruct (55296 <=? c) eqn:L1; [|reflexivity].
      destruct (c <=? 56319) eqn:L2; [|reflexivity].
      apply N.leb_le in L2.
      replace (c <=? 57343) with true in Hsur by (symmetry; apply N.leb_le; lia).
      discriminate Hsur.
Qed.

Lemma well_formed_Forall s :
  well_formed s <-> Forall (fun c => scalar_value c = true) s.
Proof.
  unfold well_formed. rewrite forallb_forall, List.Forall_forall. reflexivity.
Qed.

Lemma scan_escape s cur acc rest :
  well_formed s ->
  json_scan (JStr cur) acc (escape s ++ rest) = json_scan (JStr (cur ++ s)) acc rest.
Proof.
  intros Hs. apply well_formed_Forall in Hs. revert cur. induction Hs as [|c s Hc Hs IH]; intros cur.
  - simpl. rewrite app_nil_r. reflexivity.
  - unfold escape. cbn [flat_map]. rewrite <- app_assoc.
    rewrite scan_escape_char by assumption.
    fold (escape s). rewrite IH, <- app_assoc. reflexivity.
Qed.

Lemma scan_encode_str st s acc rest :
  st = JFirst \/ st = JValue ->
  well_formed s ->
  json_scan st acc (encode_str s ++ rest) = json_scan JAfter (acc ++ [s]) rest.
Proof.
  intros Hst Hs. unfold encode_str. cbn [app].
  assert (Hopen : json_scan st acc (c_quote :: (escape s ++ [c_quote]) ++ rest)
                  = json_scan (JStr []) acc ((escape s ++ [c_quote]) ++ rest))
    by (destruct Hst as [-> | ->]; reflexivity).
  rewrite Hopen, <- app_assoc, scan_escape by assumption.
  reflexivity.
Qed.

Lemma scan_items st lines acc :
  st = JFirst \/ st = JValue ->
  lines <> [] ->
  Forall well_formed lines ->
  json_scan st acc (join_with [c_comma; c_space] (map encode_str lines) ++ [c_rbracket])
  = Some (acc ++ lines).
Proof.
  intros Hst Hne Hwf. revert st acc Hst Hne.
  induction Hwf as [|s lines Hs Hwf IH]; intros st acc Hst Hne; [congruence|].
  destruct lines as [|s' lines'].
  - cbn [map join_with]. rewrite scan_encode_str by assumption. reflexivity.
  - change (join_with [c_comma; c_space] (map encode_str (s :: s' :: lines')))
      with (encode_str s ++ [c_comma; c_space] ++ join_with [c_comma; c_space] (map encode_str (s' :: lines'))).
    rewrite <- !app_assoc. rewrite scan_encode_str by assumption.
    cbn [app].
    change (json_scan JAfter (acc ++ [s]) (c_comma :: c_space :: join_with [c_comma; c_space] (map encode_str (s' :: lines')) ++ [c_rbracket]))
      with (json_scan JValue (acc ++ [s]) (join_with [c_comma; c_space] (map encode_str (s' :: lines')) ++ [c_rbracket])).
    rewrite IH by (auto; congruence). rewrite <- app_assoc. reflexivity.
Qed.

Theorem json_loads_dumps lines :
  Forall well_formed lines -> json_loads (json_dumps lines) = Some lines.
Proof.
  intros Hwf. unfold json_loads, json_dumps.
  change (json_scan JStart [] (c_lbracket :: ?x)) with (json_scan JFirst [] x).
  destruct lines as [|s lines]; [reflexivity|].
  rewrite scan_items by (auto; congruence). reflexivity.
Qed.

(** ** The synchronisation command *)

(** *** Running the calls *)

Lemma bind_ret {A B} (m : M A) (k : A -> M B) w a w' :
  m w = (Ret a, w') -> bind m k w = k a w'.
Proof. intros H. unfold bind. rewrite H. reflexivity. Qed.

Lemma bind_raise {A B} (m : M A) (k : A -> M B) w e w' :
  m w = (Raise e, w') -> bind m k w = (Raise e, w').
Proof. intros H. unfold bind. rewrite H. reflexivity. Qed.

Lemma path_exists_run p w :
  path_exists p w = (Ret (exists_in (fs w) p), with_trace w (trace w ++ [EExists p])).
Proof. reflexivity. Qed.

Lemma list_remove_None x l : list_remove x l = None <-> x ∉ l.
Proof.
  induction l as [|y l IH]; simpl.
  - split; [intros _; apply not_elem_of_nil | reflexivity].
  - case_bool_decide as Hy.
    + split; [discriminate | intros H; exfalso; apply H; subst; left].
    + destruct (list_remove x l) eqn:E.
      * split; [discriminate|]. intros H. exfalso.
        assert (x ∉ l) as Hx by (intros Hin; apply H; right; exact Hin).
        apply IH in Hx. discriminate.
      * split; [|reflexivity]. intros _ Hin.
        apply elem_of_cons in Hin as [->|Hin]; [congruence|].
        destruct IH as [IH _]. exact (IH eq_refl Hin).
Qed.

Lemma kept_list_remove names names' :
  list_remove init_py names = Some names' -> kept names' = kept names.
Proof.
  revert names'. induction names as [|y l IH]; simpl; intros names' H; [discriminate|].
  case_bool_decide as Hy.
  - injection H as <-. subst y. reflexivity.
  - destruct (list_remove init_py l) eqn:E; [|discriminate].
    injection H as <-. unfold kept in *. simpl. rewrite (IH _ eq_refl). reflexivity.
Qed.

Lemma get_app_migrations_file_run path w :
  exists t, get_app_migrations_file path w = (files_of (fs w) path, with_trace w t).
Proof.
  unfold get_app_migrations_file, files_of.
  rewrite (bind_ret _ _ _ _ _ (path_exists_run path w)).
  unfold exists_in. destruct (fs w !! path) as [[c|ds names]|] eqn:E.
  - eexists. unfold walk_top, bind, log, get_fs, raise, with_trace. simpl. rewrite E. reflexivity.
  - destruct (list_remove init_py names) eqn:R;
      eexists; unfold walk_top, bind, log, get_fs, raise, ret, with_trace; simpl; rewrite E, R; reflexivity.
  - eexists. reflexivity.
Qed.

(** The result of [get_app_migrations_file] in terms of the names its loop
    keeps. *)
Lemma get_app_migrations_file_spec path w :
  fst (get_app_migrations_file path w) =
  match fs w !! path with
  | None => Ret []
  | Some (File _) => Raise IndexError
  | Some (Dir _ names) =>
      if bool_decide (init_py ∈ names)
      then Ret (map (path_join path) (kept names))
      else Raise ValueError
  end.
Proof.
  destruct (get_app_migrations_file_run path w) as [t ->]. simpl.
  unfold files_of. destruct (fs w !! path) as [[c|ds names]|]; try reflexivity.
  destruct (list_remove init_py names) as [names'|] eqn:R.
  - rewrite bool_decide_eq_true_2.
    + rewrite (kept_list_remove _ _ R). reflexivity.
    + destruct (decide (init_py ∈ names)) as [Hin|Hn]; [exact Hin|].
      apply list_remove_None in Hn. congruence.
  - rewrite bool_decide_eq_false_2; [reflexivity|]. apply list_remove_None. exact R.
Qed.

(** C10.  [initial] prints one message and does nothing else: the file
    system and the table are left as they were, and the only effect added
    to the trace is the print, so no file-system call is made. *)
Theorem initial_only_prints w :
  initial w =
  (Ret tt, {| fs := fs w; store := store w;
              trace := trace w ++ [EPrint (MsgText (lit "initial"))] |}).
Proof. reflexivity. Qed.

(** *** [save] as a run of its plan *)

Lemma collect_app_dirs_run cfg apps acc w :
  exists t, collect_app_dirs cfg apps acc w
            = (Ret (app_dirs_from cfg (fs w) apps acc), with_trace w t).
Proof.
  revert acc w. induction apps as [|app apps IH]; intros acc w.
  - exists (trace w). destruct w; reflexivity.
  - cbn [collect_app_dirs app_dirs_from].
    rewrite (bind_ret _ _ _ _ _ (path_exists_run _ w)).
    destruct (exists_in (fs w) _).
    + destruct (IH (dict_set (join_with [c_slash] (split c_dot app))
                      (path_join (path_join (BASE_DIR cfg) (join_with [c_slash] (split c_dot app)))
                         migrations_dir_name) acc)
                   (with_trace w (trace w ++ [EExists (path_join (BASE_DIR cfg) (join_with [c_slash] (split c_dot app)))])))
        as [t Ht].
      exists t. exact Ht.
    + destruct (IH acc (with_trace w (trace w ++ [EExists (path_join (BASE_DIR cfg) (join_with [c_slash] (split c_dot app)))])))
        as [t Ht].
      exists t. exact Ht.
Qed.

Lemma save_file_run app file w :
  exists t, save_file app file w
            = (fst (run_step (file_step (fs w) app file) (store w)),
               with_store w (snd (run_step (file_step (fs w) app file) (store w))) t).
Proof.
  unfold save_file, file_step, lines_of, read_lines, get_or_create, print.
  unfold bind, log, get_fs, get_store, set_store, ret, raise, with_store. simpl.
  destruct (fs w !! file) as [[content|ds names]|]; simpl; try (eexists; reflexivity).
  destruct (List.filter (same_key app (record_name file)) (store w)) as [|r [|r' l]];
    simpl; eexists; reflexivity.
Qed.

Lemma run_plan_app p1 p2 s :
  run_plan (p1 ++ p2) s =
  match run_plan p1 s with
  | (Ret _, s') => run_plan p2 s'
  | (Raise e, s') => (Raise e, s')
  end.
Proof.
  revert s. induction p1 as [|st p1 IH]; intros s; simpl; [reflexivity|].
  destruct (run_step st s) as [[[]|e] s']; [apply IH | reflexivity].
Qed.

Lemma for_each_run {A} (body : A -> M unit) (steps : gmap text node -> A -> list step) :
  (forall x w, exists t, body x w
     = (fst (run_plan (steps (fs w) x) (store w)),
        with_store w (snd (run_plan (steps (fs w) x) (store w))) t)) ->
  forall l w, exists t, for_each l body w
     = (fst (run_plan (flat_map (steps (fs w)) l) (store w)),
        with_store w (snd (run_plan (flat_map (steps (fs w)) l) (store w))) t).
Proof.
  intros Hbody l. induction l as [|x l IH]; intros w.
  - exists (trace w). destruct w; reflexivity.
  - cbn [for_each flat_map]. rewrite run_plan_app.
    destruct (Hbody x w) as [t1 H1]. unfold bind. rewrite H1.
    destruct (run_plan (steps (fs w) x) (store w)) as [[[]|e] s1]; simpl.
    + destruct (IH (with_store w s1 t1)) as [t2 H2]. exists t2. exact H2.
    + exists t1. reflexivity.
Qed.

Lemma run_plan_single st s : run_plan [st] s = run_step st s.
Proof. simpl. destruct (run_step st s) as [[[]|e] s']; reflexivity. Qed.

Lemma save_app_run entry w :
  exists t, save_app entry w
            = (fst (run_plan (app_steps (fs w) entry) (store w)),
               with_store w (snd (run_plan (app_steps (fs w) entry) (store w))) t).
Proof.
  destruct entry as [app path]. unfold save_app, app_steps. cbn [fst snd].
  destruct (get_app_migrations_file_run path w) as [t1 H1].
  unfold bind. rewrite H1.
  destruct (files_of (fs w) path) as [files|e].
  - destruct (for_each_run (save_file app) (fun f file => [file_step f app file])) with (l := files) (w := with_trace w t1)
      as [t2 H2].
    + intros x w0. destruct (save_file_run app x w0) as [t Ht]. exists t.
      rewrite run_plan_single. exact Ht.
    + exists t2. rewrite H2. cbn [with_trace fs store].
      replace (flat_map (fun file => [file_step (fs w) app file]) files)
        with (map (file_step (fs w) app) files)
        by (clear; induction files; simpl; congruence).
      reflexivity.
  - exists t1. destruct w; reflexivity.
Qed.

Lemma save_run cfg w :
  exists t, save cfg w
            = (fst (run_plan (save_plan cfg (fs w)) (store w)),
               with_store w (snd (run_plan (save_plan cfg (fs w)) (store w))) t).
Proof.
  unfold save, get_app_migrations_dir, save_plan, app_dirs.
  destruct (collect_app_dirs_run cfg (INSTALLED_APPS cfg) [] w) as [t1 H1].
  unfold bind. rewrite H1.
  destruct (for_each_run save_app app_steps save_app_run
              (app_dirs_from cfg (fs w) (INSTALLED_APPS cfg) []) (with_trace w t1)) as [t2 H2].
  exists t2. exact H2.
Qed.

(** *** What a run of a plan does to the table *)

Lemma run_step_raise st s e s' : run_step st s = (Raise e, s') -> s' = s.
Proof.
  destruct st as [a n c|e0]; simpl.
  - destruct (List.filter (same_key a n) s) as [|r [|r' l]]; intros H; inversion H; reflexivity.
  - intros H; inversion H; reflexivity.
Qed.

Lemma run_step_prefix st s : exists new, snd (run_step st s) = s ++ new.
Proof.
  destruct st as [a n c|e0]; simpl.
  - destruct (List.filter (same_key a n) s) as [|r [|r' l]]; simpl;
      [eexists; reflexivity | exists []; symmetry; apply app_nil_r ..].
  - exists []. symmetry. apply app_nil_r.
Qed.

Lemma run_plan_prefix p s : exists new, snd (run_plan p s) = s ++ new.
Proof.
  revert s. induction p as [|st p IH]; intros s; simpl.
  - exists []. symmetry. apply app_nil_r.
  - destruct (run_step_prefix st s) as [n1 H1].
    destruct (run_step st s) as [[[]|e] s1]; simpl in *.
    + destruct (IH s1) as [n2 H2]. exists (n1 ++ n2). rewrite H2, H1, app_assoc. reflexivity.
    + exists n1. exact H1.
Qed.

Lemma same_key_new a n c : same_key a n {| app_name := a; file_name := n; file_content := c |} = true.
Proof. unfold same_key. simpl. rewrite !bool_decide_eq_true_2 by reflexivity. reflexivity. Qed.

Lemma same_key_other a n a' n' c :
  (a', n') <> (a, n) ->
  same_key a n {| app_name := a'; file_name := n'; file_content := c |} = false.
Proof.
  intros H. unfold same_key. simpl.
  destruct (decide (a' = a)) as [->|Ha].
  - rewrite (bool_decide_eq_false_2 (n' = n)); [apply andb_false_r|]. congruence.
  - rewrite (bool_decide_eq_false_2 (a' = a)) by exact Ha. reflexivity.
Qed.

(** A key already present is never given another row, nor are its rows touched. *)
Lemma run_step_keeps a n st s :
  List.filter (same_key a n) s <> [] ->
  List.filter (same_key a n) (snd (run_step st s)) = List.filter (same_key a n) s.
Proof.
  intros Hne. destruct st as [a' n' c|e0]; simpl; [|reflexivity].
  destruct (List.filter (same_key a' n') s) as [|r [|r' l]] eqn:E; simpl; try reflexivity.
  rewrite List.filter_app. simpl.
  rewrite same_key_other; [apply app_nil_r|].
  intros Heq. injection Heq as -> ->. congruence.
Qed.

Lemma run_plan_keeps a n p s :
  List.filter (same_key a n) s <> [] ->
  List.filter (same_key a n) (snd (run_plan p s)) = List.filter (same_key a n) s.
Proof.
  revert s. induction p as [|st p IH]; intros s Hne; simpl; [reflexivity|].
  pose proof (run_step_keeps a n st s Hne) as H1.
  destruct (run_step st s) as [[[]|e] s1]; simpl in *; [|exact H1].
  rewrite IH by (rewrite H1; exact Hne). exact H1.
Qed.

(** After a [get_or_create] that returns, its key has exactly one row. *)
Lemma run_step_created a n c s s1 :
  run_step (SCreate a n c) s = (Ret tt, s1) ->
  exists r, List.filter (same_key a n) s1 = [r]
            /\ (List.filter (same_key a n) s = [] -> file_content r = c).
Proof.
  simpl. destruct (List.filter (same_key a n) s) as [|r [|r' l]] eqn:E; intros H; inversion H; subst.
  - eexists. rewrite List.filter_app, E. simpl. rewrite same_key_new. split; reflexivity.
  - exists r. split; [exact E | discriminate].
Qed.

Lemma run_step_again st s s1 :
  run_step st s = (Ret tt, s1) -> forall s2,
  (forall a n, List.filter (same_key a n) s1 <> [] ->
               List.filter (same_key a n) s2 = List.filter (same_key a n) s1) ->
  run_step st s2 = (Ret tt, s2).
Proof.
  intros H s2 Hk. destruct st as [a n c|e0]; [|simpl in H; discriminate].
  destruct (run_step_created _ _ _ _ _ H) as [r [Hr _]].
  simpl. rewrite (Hk a n) by (rewrite Hr; discriminate). rewrite Hr. reflexivity.
Qed.

Lemma run_plan_again p s :
  snd (run_plan p (snd (run_plan p s))) = snd (run_plan p s).
Proof.
  revert s. induction p as [|st p IH]; intros s; [reflexivity|].
  cbn [run_plan]. destruct (run_step st s) as [[[]|e] s1] eqn:E.
  - rewrite (run_step_again st s s1 E (snd (run_plan p s1))).
    + apply IH.
    + intros a n Hne. apply run_plan_keeps. exact Hne.
  - pose proof (run_step_raise _ _ _ _ E) as Hs. subst s1.
    cbn [snd]. cbn [run_plan]. rewrite E. reflexivity.
Qed.

(** C5.  [save] never touches a row that exists: whatever the file system
    holds, the table after [save] is the table before it followed by the
    rows created, and [save] leaves the file system alone.  Run a second
    time, [save] leaves the table exactly as the first run left it. *)
Theorem save_idempotent cfg w :
  (exists created, store (snd (save cfg w)) = store w ++ created)
  /\ fs (snd (save cfg w)) = fs w
  /\ store (snd (save cfg (snd (save cfg w)))) = store (snd (save cfg w)).
Proof.
  destruct (save_run cfg w) as [t H]. rewrite H. cbn [snd with_store fs store].
  split; [apply run_plan_prefix|]. split; [reflexivity|].
  destruct (save_run cfg (with_store w (snd (run_plan (save_plan cfg (fs w)) (store w))) t)) as [t' H'].
  rewrite H'. cbn [snd with_store fs store]. apply run_plan_again.
Qed.

(** *** Reading lines and writing them back *)









(** *** What [save] leaves in the table *)

Lemma dict_set_In_new k v d : In (k, v) (dict_set k v d).
Proof.
  induction d as [|[k' v'] d IH]; simpl; [left; reflexivity|].
  case_bool_decide; [left; reflexivity | right; exact IH].
Qed.

Lemma dict_set_In_old k v d k' v' :
  In (k', v') d -> k' <> k -> In (k', v') (dict_set k v d).
Proof.
  intros Hin Hne. induction d as [|[k0 v0] d IH]; simpl in *; [contradiction|].
  case_bool_decide as E.
  - destruct Hin as [H|H]; [congruence | right; exact H].
  - destruct Hin as [H|H]; [left; exact H | right; apply IH; exact H].
Qed.

Lemma dict_set_In_inv k v d k' v' :
  In (k', v') (dict_set k v d) -> (k', v') = (k, v) \/ In (k', v') d.
Proof.
  induction d as [|[k0 v0] d IH]; simpl.
  - intros [H|[]]; left; congruence.
  - case_bool_decide as E; intros [H|H].
    + left; congruence.
    + right; right; exact H.
    + right; left; exact H.
    + destruct (IH H) as [H'|H']; [left; exact H' | right; right; exact H'].
Qed.


Lemma app_dirs_from_keeps cfg f apps acc k :
  (forall k v, In (k, v) acc -> v = migrations_dir_of cfg k) ->
  In (k, migrations_dir_of cfg k) acc ->
  In (k, migrations_dir_of cfg k) (app_dirs_from cfg f apps acc).
Proof.
  revert acc. induction apps as [|a apps IH]; intros acc Hacc Hin; simpl; [exact Hin|].
  destruct (exists_in f _); [|apply IH; assumption].
  apply IH.
  - intros k' v' H. destruct (dict_set_In_inv _ _ _ _ _ H) as [E|E]; [|apply Hacc; exact E].
    injection E as -> ->. reflexivity.
  - destruct (decide (k = app_path_of a)) as [->|Hne].
    + apply dict_set_In_new.
    + apply dict_set_In_old; assumption.
Qed.

Lemma app_dirs_from_In cfg f apps acc a :
  (forall k v, In (k, v) acc -> v = migrations_dir_of cfg k) ->
  In a apps ->
  exists_in f (path_join (BASE_DIR cfg) (app_path_of a)) = true ->
  In (app_path_of a, migrations_dir_of cfg (app_path_of a)) (app_dirs_from cfg f apps acc).
Proof.
  revert acc. induction apps as [|a0 apps IH]; intros acc Hacc Hin He; [contradiction|].
  cbn [app_dirs_from]. destruct Hin as [->|Hin].
  - fold (app_path_of a). rewrite He. apply app_dirs_from_keeps.
    + intros k' v' H. destruct (dict_set_In_inv _ _ _ _ _ H) as [E|E]; [|apply Hacc; exact E].
      injection E as -> ->. reflexivity.
    + apply dict_set_In_new.
  - match goal with |- context [if ?b then _ else _] => destruct b end;
      apply IH; try assumption.
    intros k' v' H. destruct (dict_set_In_inv _ _ _ _ _ H) as [E|E]; [|apply Hacc; exact E].
    injection E as -> ->. reflexivity.
Qed.










(** In the deployment [site_world] the application [blog] has the single
    migration [0001_initial.py].  [save]
    runs to completion and the table then holds one row, filed under the
    path of the file cut at its first dot; no row has the stem
    [0001_initial] as its [file_name].  And over a table that already holds
    a row under that key, [save] leaves the old content in place although
    the file holds other lines. *)
Example save_files_under_path_not_stem :
  fst (save site_settings site_world) = Ret tt
  /\ store (snd (save site_settings site_world))
     = [ {| app_name := lit "blog";
            file_name := lit "/srv/site/blog/migrations/0001_initial";
            file_content := json_dumps (readlines migration_text) |} ]
  /\ List.filter (fun r => bool_decide (file_name r = lit "0001_initial"))
       (store (snd (save site_settings site_world))) = []
  /\ fst (save site_settings stale_world) = Ret tt
  /\ store (snd (save site_settings stale_world)) = [stale_row]
  /\ file_content stale_row <> json_dumps (readlines migration_text).
Proof.
  repeat split; try (vm_compute; reflexivity). vm_compute. discriminate.
Qed.

(** The project deployed at [/srv/my.site]: [save] files the migration
    of [blog] under the name [/srv/my], and [load], run on the table [save]
    has filled, writes the row to [/srv/my.py]; the migrations directory
    gains no file, and the only write [load] makes inside it is the package
    marker. *)
Example load_writes_outside_migrations_dir :
  let w1 := snd (save dotted_settings dotted_world) in
  let w2 := snd (load dotted_settings w1) in
  store w1 = [ {| app_name := lit "blog"; file_name := lit "/srv/my";
                  file_content := json_dumps (readlines migration_text) |} ]
  /\ fst (load dotted_settings w1) = Ret tt
  /\ List.filter (fun e => match e with EWrite _ _ => true | _ => false end) (trace w2)
     = [ EWrite (lit "/srv/my.site/blog/migrations/__init__.py") [];
         EWrite (lit "/srv/my.py") (coding_header ++ migration_text) ]
  /\ fs w2 !! lit "/srv/my.py" = Some (File (coding_header ++ migration_text))
  /\ fs w2 !! lit "/srv/my.site/blog/migrations"
     = Some (Dir [] [lit "__init__.py"; lit "0001_initial.py"]).
Proof.
  repeat split; vm_compute; reflexivity.
Qed.

(** *** [get_app_migrations_dir] *)

Lemma dict_set_keys k v d x :
  In x (map fst (dict_set k v d)) <-> x = k \/ In x (map fst d).
Proof.
  induction d as [|[k0 v0] d IH]; simpl.
  - split; [intros [H|[]]; left; congruence | intros [H|[]]; left; congruence].
  - case_bool_decide as E; simpl.
    + subst k0. intuition congruence.
    + rewrite IH. intuition congruence.
Qed.

Lemma dict_set_NoDup k v d : NoDup (map fst d) -> NoDup (map fst (dict_set k v d)).
Proof.
  induction d as [|[k0 v0] d IH]; simpl; intros H.
  - constructor; [apply not_elem_of_nil | constructor].
  - apply NoDup_cons in H as [Hn Hd]. case_bool_decide as E; simpl.
    + subst k0. apply NoDup_cons. split; assumption.
    + apply NoDup_cons. split; [|apply IH; exact Hd].
      rewrite list_elem_of_In, dict_set_keys. intros [->|Hin]; [congruence|].
      apply Hn. apply list_elem_of_In. exact Hin.
Qed.

Lemma app_dirs_from_NoDup cfg f apps acc :
  NoDup (map fst acc) -> NoDup (map fst (app_dirs_from cfg f apps acc)).
Proof.
  revert acc. induction apps as [|a apps IH]; intros acc H; simpl; [exact H|].
  destruct (exists_in f _); apply IH; [apply dict_set_NoDup|]; exact H.
Qed.

Lemma app_dirs_from_inv cfg f apps acc k v :
  In (k, v) (app_dirs_from cfg f apps acc) ->
  In (k, v) acc
  \/ exists a, In a apps /\ k = app_path_of a
               /\ exists_in f (path_join (BASE_DIR cfg) k) = true
               /\ v = migrations_dir_of cfg k.
Proof.
  revert acc. induction apps as [|a apps IH]; intros acc H; simpl in H; [left; exact H|].
  fold (app_path_of a) in H.
  destruct (exists_in f (path_join (BASE_DIR cfg) (app_path_of a))) eqn:E.
  - destruct (IH _ H) as [Hin|[a' [Ha' R]]].
    + destruct (dict_set_In_inv _ _ _ _ _ Hin) as [Heq|Hold]; [|left; exact Hold].
      injection Heq as -> ->. right. exists a.
      split; [left; reflexivity|]. split; [reflexivity|]. split; [exact E | reflexivity].
    + right. exists a'. split; [right; exact Ha' | exact R].
  - destruct (IH _ H) as [Hin|[a' [Ha' R]]]; [left; exact Hin|].
    right. exists a'. split; [right; exact Ha' | exact R].
Qed.

(** [get_app_migrations_dir] only looks at the file system, and returns one
    entry for each installed application whose directory exists: the key is
    the application's name with its dots turned into separators, the value
    the [migrations] directory below the application's directory.  No key
    occurs twice, and nothing else is returned. *)
Theorem get_app_migrations_dir_spec cfg w :
  exists dirs,
    fst (get_app_migrations_dir cfg w) = Ret dirs
    /\ fs (snd (get_app_migrations_dir cfg w)) = fs w
    /\ store (snd (get_app_migrations_dir cfg w)) = store w
    /\ NoDup (map fst dirs)
    /\ forall k v,
         In (k, v) dirs <->
         (exists a, In a (INSTALLED_APPS cfg) /\ k = app_path_of a)
         /\ exists_in (fs w) (path_join (BASE_DIR cfg) k) = true
         /\ v = migrations_dir_of cfg k.
Proof.
  unfold get_app_migrations_dir.
  destruct (collect_app_dirs_run cfg (INSTALLED_APPS cfg) [] w) as [t H].
  exists (app_dirs_from cfg (fs w) (INSTALLED_APPS cfg) []).
  rewrite H. cbn [fst snd with_trace fs store].
  split; [reflexivity|]. split; [reflexivity|]. split; [reflexivity|].
  split; [apply app_dirs_from_NoDup; constructor|].
  intros k v. split.
  - intros Hin. destruct (app_dirs_from_inv _ _ _ _ _ _ Hin) as [[]|[a [Ha [Hk [He Hv]]]]].
    split; [exists a; split; assumption|]. split; assumption.
  - intros [[a [Ha ->]] [He ->]].
    apply app_dirs_from_In; [intros ? ? [] | exact Ha | exact He].
Qed.

(** *** Where [load] writes what [save] stored *)

Lemma split_head_cons sep c s :
  c <> sep -> first_part (split sep (c :: s)) = c :: first_part (split sep s).
Proof.
  intros Hc. simpl. destruct (N.eqb_spec c sep) as [E|_]; [contradiction|].
  destruct (split sep s); reflexivity.
Qed.

Lemma first_part_split_app sep a b :
  Forall (fun c => c <> sep) a ->
  first_part (split sep (a ++ sep :: b)) = a.
Proof.
  induction 1 as [|c a Hc Ha IH].
  - simpl. rewrite N.eqb_refl. reflexivity.
  - rewrite <- app_comm_cons, split_head_cons, IH by exact Hc. reflexivity.
Qed.

Lemma record_name_absolute file :
  starts_with_sep file = true -> starts_with_sep (record_name file) = true.
Proof.
  destruct file as [|c s]; [discriminate|]. simpl. intros Hc.
  apply N.eqb_eq in Hc. subst c. unfold record_name.
  rewrite split_head_cons by discriminate. reflexivity.
Qed.

Lemma starts_with_sep_app a b :
  starts_with_sep a = true -> starts_with_sep (a ++ b) = true.
Proof. destruct a; [discriminate | exact id]. Qed.

Lemma path_join_absolute a b :
  starts_with_sep a = true -> starts_with_sep (path_join a b) = true.
Proof.
  intros Ha. unfold path_join. destruct (starts_with_sep b) eqn:Hb; [exact Hb|].
  destruct a as [|c a]; [discriminate|]. cbn [orb].
  destruct (ends_with_sep (c :: a)); apply starts_with_sep_app; exact Ha.
Qed.

(** Under an absolute [BASE_DIR], the row [save] creates for a migration
    [name] of an application carries an absolute [file_name], and
    [os.path.join] then drops the directory [load] is filling: whatever that
    directory [path'] is, the row is written to its own [file_name] followed
    by [.py]. *)
Theorem load_target_of_saved_row cfg a name content path' :
  starts_with_sep (BASE_DIR cfg) = true ->
  let file := path_join (migrations_dir_of cfg (app_path_of a)) name in
  load_target path'
    {| app_name := app_path_of a; file_name := record_name file; file_content := content |}
  = record_name file ++ dot_py.
Proof.
  intros Hb file. unfold load_target, path_join at 1. cbn [file_name].
  rewrite starts_with_sep_app; [reflexivity|].
  apply record_name_absolute. unfold file, migrations_dir_of.
  destruct (starts_with_sep name) eqn:Hn.
  - unfold path_join at 1. rewrite Hn. exact Hn.
  - apply path_join_absolute.
    destruct (starts_with_sep (app_path_of a)) eqn:Hk.
    + apply path_join_absolute. unfold path_join. rewrite Hk. exact Hk.
    + apply path_join_absolute, path_join_absolute. exact Hb.
Qed.

(** An absolute path with no dot other than the one of its [.py] extension
    comes back from [save] and [load] unchanged: the row is filed under the
    path without its extension, and [load] writes it to that name followed
    by [.py], from whatever directory it works on. *)
Theorem saved_row_restored_in_place app base content path' :
  starts_with_sep base = true ->
  no_dot base = true ->
  load_target path'
    {| app_name := app; file_name := record_name (base ++ dot_py); file_content := content |}
  = base ++ dot_py.
Proof.
  intros Hb Hd. unfold load_target, record_name. cbn [file_name].
  change dot_py with (c_dot :: lit "py") at 1.
  rewrite first_part_split_app.
  2:{ apply List.Forall_forall. intros c Hc. unfold no_dot in Hd.
      rewrite forallb_forall in Hd. specialize (Hd c Hc).
      intros ->. discriminate Hd. }
  unfold path_join. rewrite starts_with_sep_app by exact Hb. reflexivity.
Qed.

(** *** [load] and the table *)

Lemma keeps_store_bind {A B} (m : M A) (k : A -> M B) :
  keeps_store m -> (forall a, keeps_store (k a)) -> keeps_store (bind m k).
Proof.
  intros Hm Hk w. unfold bind. specialize (Hm w).
  destruct (m w) as [[a|e] w1]; simpl in *; [rewrite Hk; exact Hm | exact Hm].
Qed.

Lemma keeps_store_for_each {A} (l : list A) (body : A -> M unit) :
  (forall x, keeps_store (body x)) -> keeps_store (for_each l body).
Proof.
  intros Hb. induction l as [|x l IH]; [intros w; reflexivity|].
  simpl. apply keeps_store_bind; [apply Hb | intros _; exact IH].
Qed.

Lemma keeps_store_write_file p content : keeps_store (write_file p content).
Proof.
  intros w. unfold write_file, bind, get_fs, parent_dir, raise, log, set_fs. simpl.
  destruct (fs w !! p) as [[c|d1 d2]|]; simpl; try reflexivity;
    destruct (fs w !! dirname p) as [[c'|d1' d2']|]; reflexivity.
Qed.

Lemma keeps_store_mkdir p : keeps_store (mkdir p).
Proof.
  intros w. unfold mkdir, bind, get_fs, parent_dir, raise, log, set_fs. simpl.
  destruct (fs w !! p) as [n|]; simpl; [reflexivity|].
  destruct (fs w !! dirname p) as [[c'|d1' d2']|]; reflexivity.
Qed.

Lemma keeps_store_load_record path r : keeps_store (load_record path r).
Proof.
  unfold load_record. destruct (json_loads (file_content r)).
  - apply keeps_store_write_file.
  - apply keeps_store_bind; [apply keeps_store_write_file | intros _ w; reflexivity].
Qed.

Lemma keeps_store_load_app entry : keeps_store (load_app entry).
Proof.
  destruct entry as [app path]. unfold load_app.
  apply keeps_store_bind; [intros w; reflexivity|]. intros e.
  apply keeps_store_bind.
  { destruct e; [intros w; reflexivity | apply keeps_store_mkdir]. }
  intros _. apply keeps_store_bind; [apply keeps_store_write_file|]. intros _.
  apply keeps_store_bind; [intros w; reflexivity|]. intros rows.
  apply keeps_store_bind; [|intros _ w; reflexivity].
  apply keeps_store_for_each. intros r. apply keeps_store_load_record.
Qed.

(** [load] never changes the table: whatever the file system and the rows
    are, and whether [load] completes or stops on an exception, the table it
    leaves is the table it found. *)
Theorem load_keeps_store cfg w : store (snd (load cfg w)) = store w.
Proof.
  revert w. change (keeps_store (load cfg)). unfold load.
  apply keeps_store_bind.
  - intros w. unfold get_app_migrations_dir.
    destruct (collect_app_dirs_run cfg (INSTALLED_APPS cfg) [] w) as [t H].
    rewrite H. reflexivity.
  - intros dirs. apply keeps_store_for_each. intros entry. apply keeps_store_load_app.
Qed.

Lemma load_target_of_saved_row_witness :
  load_target (lit "/opt/other/blog/migrations")
    {| app_name := lit "blog";
       file_name := lit "/srv/site/blog/migrations/0001_initial";
       file_content := [] |}
  = lit "/srv/site/blog/migrations/0001_initial.py".
Proof.
  exact (load_target_of_saved_row site_settings (lit "blog") (lit "0001_initial.py") []
           (lit "/opt/other/blog/migrations") eq_refl).
Defined.

Lemma saved_row_restored_in_place_witness :
  load_target (lit "/opt/other/blog/migrations")
    {| app_name := lit "blog";
       file_name := record_name (lit "/srv/site/blog/migrations/0001_initial.py");
       file_content := [] |}
  = lit "/srv/site/blog/migrations/0001_initial.py".
Proof.
  exact (saved_row_restored_in_place (lit "blog") (lit "/srv/site/blog/migrations/0001_initial")
           [] (lit "/opt/other/blog/migrations") eq_refl eq_refl).
Defined.

(** *** [load] and the package marker *)

















(** What [save] stores [load] can read: for lines made of Unicode scalar
    values, as text-mode reading yields them, decoding the serialisation of
    a list of lines gives that list back, whatever the lines hold (quotes,
    backslashes, control characters, characters beyond the ASCII range and
    beyond the Basic Multilingual Plane included). *)
Theorem json_dumps_then_loads lines :
  forallb (forallb scalar_value) lines = true ->
  json_loads (json_dumps lines) = Some lines.
Proof.
  intros H. apply json_loads_dumps. apply List.Forall_forall. intros l Hl.
  rewrite forallb_forall in H. exact (H l Hl).
Qed.

Lemma json_dumps_then_loads_witness :
  json_loads (json_dumps [lit "name = 'x'" ++ [10]; [34; 92; 233; 128512; 9]])
  = Some [lit "name = 'x'" ++ [10]; [34; 92; 233; 128512; 9]].
Proof.
  exact (json_dumps_then_loads [lit "name = 'x'" ++ [10]; [34; 92; 233; 128512; 9]] eq_refl).
Defined.


(** *** The names [get_app_migrations_file] drops *)

Lemma split_last_after sep a b :
  exists w ws, split sep (a ++ sep :: b) = w :: ws
               /\ ws <> [] /\ List.last ws [] = last_part (split sep b).
Proof.
  induction a as [|c a [w [ws [E [Hne Hl]]]]].
  - simpl. rewrite N.eqb_refl. exists [], (split sep b).
    split; [reflexivity|]. split; [destruct b as [|c b]; simpl; [discriminate|];
      destruct (c =? sep); [discriminate | destruct (split sep b); discriminate] | reflexivity].
  - cbn [app split]. rewrite E. destruct (c =? sep).
    + exists [], (w :: ws). split; [reflexivity|]. split; [discriminate|].
      destruct ws; [congruence | exact Hl].
    + exists (c :: w), ws. split; [reflexivity|]. split; assumption.
Qed.

Lemma last_part_split_app sep a b :
  last_part (split sep (a ++ sep :: b)) = last_part (split sep b).
Proof.
  destruct (split_last_after sep a b) as [w [ws [E [Hne Hl]]]].
  unfold last_part at 1. rewrite E. destruct ws; [congruence | exact Hl].
Qed.

Lemma split_no_dot s : no_dot s = true -> split c_dot s = [s].
Proof.
  unfold no_dot. induction s as [|c s IH]; simpl; [reflexivity|].
  intros H. apply andb_true_iff in H as [Hc Hs]. rewrite (IH Hs).
  destruct (c =? c_dot); [discriminate | reflexivity].
Qed.

Lemma last_dot_cases s :
  no_dot s = true \/ exists a b, s = a ++ c_dot :: b /\ no_dot b = true.
Proof.
  induction s as [|c s [Hs|[a [b [-> Hb]]]]].
  - left. reflexivity.
  - destruct (c =? c_dot) eqn:E.
    + right. apply N.eqb_eq in E. subst c. exists [], s. split; [reflexivity | exact Hs].
    + left. unfold no_dot in *. simpl. rewrite E, Hs. reflexivity.
  - right. exists (c :: a), b. split; [reflexivity | exact Hb].
Qed.

Lemma last_part_split_pyc s :
  last_part (split c_dot s) = pyc <-> s = pyc \/ exists a, s = a ++ c_dot :: pyc.
Proof.
  split.
  - intros H. destruct (last_dot_cases s) as [Hs|[a [b [-> Hb]]]].
    + rewrite (split_no_dot s Hs) in H. left. exact H.
    + rewrite last_part_split_app, (split_no_dot b Hb) in H.
      change (last_part [b]) with b in H. subst b.
      right. exists a. reflexivity.
  - intros [->|[a ->]]; [reflexivity|]. rewrite last_part_split_app. reflexivity.
Qed.

Lemma ends_with_spec suffix s : ends_with suffix s = true <-> exists a, s = a ++ suffix.
Proof.
  unfold ends_with. rewrite bool_decide_eq_true. split.
  - intros H. exists (take (length s - length suffix) s).
    transitivity (take (length s - length suffix) s ++ drop (length s - length suffix) s);
      [symmetry; apply take_drop | rewrite H; reflexivity].
  - intros [a ->]. rewrite length_app.
    replace (length a + length suffix - length suffix)%nat with (length a) by lia.
    apply drop_app_length.
Qed.

Lemma skipped_names name :
  skipped name
  = bool_decide (name = lit "__init__.py") || bool_decide (name = lit "pyc")
    || ends_with (lit ".pyc") name.
Proof.
  unfold skipped. rewrite <- orb_assoc. f_equal.
  destruct (bool_decide (name = lit "pyc") || ends_with (lit ".pyc") name) eqn:E.
  - apply bool_decide_eq_true. apply last_part_split_pyc.
    apply orb_true_iff in E as [E|E].
    + left. apply bool_decide_eq_true in E. exact E.
    + right. apply ends_with_spec in E. exact E.
  - apply bool_decide_eq_false. intros H. apply last_part_split_pyc in H.
    apply orb_false_iff in E as [E1 E2]. destruct H as [H|H].
    + apply bool_decide_eq_false in E1. contradiction.
    + change (c_dot :: pyc) with (lit ".pyc") in H. apply ends_with_spec in H. congruence.
Qed.

(** C9 (amended).  [get_app_migrations_file] returns the empty list for a
    path that does not exist and raises for a path that is not a directory;
    for a directory it raises unless the listing holds [__init__.py], and
    otherwise returns, in the order of the listing and each joined with the
    directory path, exactly the names other than [__init__.py] that are
    neither [pyc] nor end in [.pyc]. *)
Theorem get_app_migrations_file_returns path w :
  fst (get_app_migrations_file path w) =
  match fs w !! path with
  | None => Ret []
  | Some (File _) => Raise IndexError
  | Some (Dir _ names) =>
      if bool_decide (lit "__init__.py" ∈ names) then
        Ret (map (path_join path)
               (List.filter
                  (fun name => negb (bool_decide (name = lit "__init__.py")
                                     || bool_decide (name = lit "pyc")
                                     || ends_with (lit ".pyc") name))
                  names))
      else Raise ValueError
  end.
Proof.
  rewrite get_app_migrations_file_spec.
  destruct (fs w !! path) as [[c|ds names]|]; try reflexivity.
  change init_py with (lit "__init__.py").
  destruct (bool_decide (lit "__init__.py" ∈ names)); [|reflexivity].
  unfold kept. do 2 f_equal. apply List.filter_ext. intros name.
  rewrite skipped_names. reflexivity.
Qed.

(** C9 (as stated, refuted).  The names [pyc] and [.pyc] have no extension,
    so the files of the directory "whose extension is not pyc" include them;
    [get_app_migrations_file] drops both, and of the four files of this
    directory returns the one named [a.py] only, where the specification has
    it return three. *)
Lemma get_app_migrations_file_drops_pyc_names :
  file_extension (lit "pyc") = None
  /\ file_extension (lit ".pyc") = None
  /\ fs pyc_world !! lit "/srv/site/blog/migrations"
     = Some (Dir [] [lit "__init__.py"; lit "pyc"; lit ".pyc"; lit "a.py"])
  /\ files_as_stated (lit "/srv/site/blog/migrations")
       [lit "__init__.py"; lit "pyc"; lit ".pyc"; lit "a.py"]
     = [lit "/srv/site/blog/migrations/pyc"; lit "/srv/site/blog/migrations/.pyc";
        lit "/srv/site/blog/migrations/a.py"]
  /\ fst (get_app_migrations_file (lit "/srv/site/blog/migrations") pyc_world)
     = Ret [lit "/srv/site/blog/migrations/a.py"]
  /\ fst (get_app_migrations_file (lit "/srv/site/blog/migrations") pyc_world)
     <> Ret (files_as_stated (lit "/srv/site/blog/migrations")
               [lit "__init__.py"; lit "pyc"; lit ".pyc"; lit "a.py"]).
Proof.
  repeat split; try (vm_compute; reflexivity). vm_compute. discriminate.
Qed.

(** ** Facts about the formatter, the command base class and the cache *)

Lemma assoc_get_set_eq {V} k (v : V) d : assoc_get (assoc_set k v d) k = Some v.
Proof.
  induction d as [|[k' v'] d IH]; simpl.
  - rewrite bool_decide_eq_true_2 by reflexivity. reflexivity.
  - case_bool_decide as E; simpl.
    + rewrite bool_decide_eq_true_2 by reflexivity. reflexivity.
    + rewrite bool_decide_eq_false_2 by exact E. exact IH.
Qed.

Lemma assoc_get_set_ne {V} k k0 (v : V) d :
  k0 <> k -> assoc_get (assoc_set k v d) k0 = assoc_get d k0.
Proof.
  intros Hne. induction d as [|[k' v'] d IH]; simpl.
  - rewrite bool_decide_eq_false_2 by congruence. reflexivity.
  - case_bool_decide as E; simpl.
    + subst k'. rewrite !bool_decide_eq_false_2 by congruence. reflexivity.
    + case_bool_decide; [reflexivity | exact IH].
Qed.

Lemma assoc_get_In {V} (d : list (text * V)) k v : assoc_get d k = Some v -> In (k, v) d.
Proof.
  induction d as [|[k' v'] d IH]; simpl; [discriminate|].
  case_bool_decide as E.
  - intros H. injection H as ->. subst. left; reflexivity.
  - intros H. right. exact (IH H).
Qed.

Lemma assoc_get_None {V} (d : list (text * V)) k :
  assoc_get d k = None <-> forall v, ~ In (k, v) d.
Proof.
  induction d as [|[k' v'] d IH]; simpl.
  - split; [intros _ v [] | reflexivity].
  - case_bool_decide as E.
    + split; [discriminate|]. intros H. exfalso. apply (H v'). left. subst. reflexivity.
    + rewrite IH. split.
      * intros H v [Heq|Hin]; [congruence | exact (H v Hin)].
      * intros H v Hin. exact (H v (or_intror Hin)).
Qed.

(** A colour name that the table of colours does not hold is not replaced
    by the code of the default colour: [dict.get] falls back on the name
    [green] itself, which lands in the escape sequence where the code [32]
    belongs, so the text differs from the one the default colour gives. *)
Theorem output_formatter_unknown_color message color bgcolor display :
  assoc_get colors color = None ->
  output_formatter message color bgcolor display
  = c_esc :: lit "[" ++ get_formatted displays display (utf8 "终端默认")
    ++ lit ";green;" ++ get_formatted bgcolors bgcolor (lit "black") ++ lit "m"
    ++ message ++ c_esc :: lit "[0m"
  /\ output_formatter message color bgcolor display
     <> output_formatter message default_color bgcolor display.
Proof.
  intros H.
  assert (get_formatted colors color (lit "green") = lit "green") as Hg
    by (unfold get_formatted; rewrite H; reflexivity).
  assert (get_formatted colors default_color (lit "green") = lit "32") as Hd
    by reflexivity.
  unfold output_formatter. rewrite Hg, Hd. split.
  - change (lit ";green;") with (lit ";" ++ lit "green" ++ lit ";").
    rewrite <- !app_assoc. reflexivity.
  - intros E. apply (f_equal (@length N)) in E.
    cbn [length] in E. rewrite !length_app in E. simpl in E. lia.
Qed.

Lemma output_formatter_unknown_color_witness :
  output_formatter (lit "done") (lit "purple") (lit "black") default_display
  <> output_formatter (lit "done") default_color (lit "black") default_display.
Proof.
  exact (proj2 (output_formatter_unknown_color (lit "done") (lit "purple") (lit "black")
                  default_display eq_refl)).
Defined.

Lemma new_cases cls :
  match new cls with
  | Instance c =>
      c = cls /\ forall a, In a (action_choice cls) -> getattr cls a <> None
  | UndefinedActions missing =>
      missing <> []
      /\ forall a, In a missing <-> In a (action_choice cls) /\ getattr cls a = None
  end.
Proof.
  unfold new. destruct (Nat.ltb_spec 0 (length (error_list cls))) as [Hlt|Hge].
  - split.
    + intros E. rewrite E in Hlt. simpl in Hlt. lia.
    + intros a. unfold error_list. rewrite List.filter_In.
      destruct (getattr cls a); split; intros [H1 H2]; split; congruence.
  - split; [reflexivity|]. intros a Ha Hn.
    assert (In a (error_list cls)) as Hin.
    { unfold error_list. apply List.filter_In. rewrite Hn. split; [exact Ha | reflexivity]. }
    destruct (error_list cls); [contradiction | simpl in Hge; lia].
Qed.

(** [__new__] either yields the instance, and then every declared action
    names an attribute, or raises for a list that is not empty and holds
    exactly the declared actions that name no attribute. *)
Theorem new_spec cls :
  match new cls with
  | Instance c =>
      c = cls /\ forall a, In a (action_choice cls) -> getattr cls a <> None
  | UndefinedActions missing =>
      missing <> []
      /\ forall a, In a missing <-> In a (action_choice cls) /\ getattr cls a = None
  end.
Proof. exact (new_cases cls). Qed.



Lemma handle_method cls options a m w :
  assoc_get options (action cls) = Some a ->
  getattr_instance cls a = Some (method m) ->
  handle cls options w = (Ran (fst (m w)), snd (m w)).
Proof.
  intros Ho Hg. unfold handle. rewrite Ho, Hg. unfold method. destruct (m w); reflexivity.
Qed.

(** The synchronisation command always passes the check of [__new__],
    whatever it inherits, and [handle] runs [save], [load] or [initial] for
    the action of that name. *)
Theorem syncmigrate_handle cfg inherited options w :
  new (syncmigrate_command cfg inherited) = Instance (syncmigrate_command cfg inherited)
  /\ (assoc_get options (lit "action") = Some (lit "save") ->
      handle (syncmigrate_command cfg inherited) options w
      = (Ran (fst (save cfg w)), snd (save cfg w)))
  /\ (assoc_get options (lit "action") = Some (lit "load") ->
      handle (syncmigrate_command cfg inherited) options w
      = (Ran (fst (load cfg w)), snd (load cfg w)))
  /\ (assoc_get options (lit "action") = Some (lit "initial") ->
      handle (syncmigrate_command cfg inherited) options w
      = (Ran (fst (initial w)), snd (initial w))).
Proof.
  split; [reflexivity|].
  repeat split; intros H;
    apply (handle_method (syncmigrate_command cfg inherited) options _ _ w H); reflexivity.
Qed.

(** Reading the cache back under the key and salt it was filled with gives
    the stored object, with one exception the code makes itself: a stored
    [None] is reported as a miss.  Entries packed to another key are not
    affected. *)
Theorem get_cache_set_cache key salt obj context :
  get_cache key salt (set_cache key obj salt context) = (negb (is_None obj), obj)
  /\ forall key' salt',
       _pack_uniq_key key' salt' <> _pack_uniq_key key salt ->
       get_cache key' salt' (set_cache key obj salt context) = get_cache key' salt' context.
Proof.
  unfold get_cache, set_cache. split.
  - rewrite lookup_insert_eq. destruct obj; reflexivity.
  - intros key' salt' Hne. rewrite lookup_insert_ne by congruence. reflexivity.
Qed.

Lemma dash_split a a' b b' :
  no_dash a = true -> no_dash a' = true ->
  a ++ c_dash :: b = a' ++ c_dash :: b' -> a = a' /\ b = b'.
Proof.
  revert a'. induction a as [|c a IH]; intros [|c' a'] Ha Ha' E; simpl in *.
  - injection E as ->. split; reflexivity.
  - injection E as <- _. apply andb_true_iff in Ha' as [Hc _]. discriminate Hc.
  - injection E as -> _. apply andb_true_iff in Ha as [Hc _]. discriminate Hc.
  - injection E as -> E. apply andb_true_iff in Ha as [_ Ha].
    apply andb_true_iff in Ha' as [_ Ha'].
    destruct (IH a' Ha Ha' E) as [-> ->]. split; reflexivity.
Qed.

(** Keys that hold no dash are packed injectively: two entries share a
    cache slot only if their keys are equal and their salts print alike. *)
Theorem pack_uniq_key_injective key key' salt salt' :
  no_dash key = true ->
  no_dash key' = true ->
  _pack_uniq_key key salt = _pack_uniq_key key' salt' ->
  key = key' /\ str_of_salt salt = str_of_salt salt'.
Proof. intros Hk Hk' E. exact (dash_split _ _ _ _ Hk Hk' E). Qed.

Lemma pack_uniq_key_injective_witness :
  lit "user" = lit "user" /\ str_of_salt (SaltInt 7) = str_of_salt (SaltStr (lit "7")).
Proof.
  exact (pack_uniq_key_injective (lit "user") (lit "user") (SaltInt 7) (SaltStr (lit "7"))
           eq_refl eq_refl eq_refl).
Defined.

(** A key that holds a dash can collide: the key [k1-k2] with salt [s] and
    the key [k1] with salt [k2-s] are packed to the same slot, so what is
    cached under the one is served for the other. *)
Theorem pack_uniq_key_collision k1 k2 s obj context :
  _pack_uniq_key (k1 ++ c_dash :: k2) (SaltStr s)
  = _pack_uniq_key k1 (SaltStr (k2 ++ c_dash :: s))
  /\ get_cache k1 (SaltStr (k2 ++ c_dash :: s))
       (set_cache (k1 ++ c_dash :: k2) obj (SaltStr s) context)
     = (negb (is_None obj), obj).
Proof.
  assert (_pack_uniq_key (k1 ++ c_dash :: k2) (SaltStr s)
          = _pack_uniq_key k1 (SaltStr (k2 ++ c_dash :: s))) as E.
  { unfold _pack_uniq_key. simpl. rewrite <- app_assoc. reflexivity. }
  split; [exact E|].
  unfold get_cache, set_cache. rewrite E, lookup_insert_eq. destruct obj; reflexivity.
Qed.

(** ** Facts about the envelope helpers and the query-string cleaning *)

(** An extra set through [set_extra] is part of every answer [set_json]
    builds afterwards, for whichever view: the dictionary belongs to the
    class.  The answer reports the view's [_total_count] as [count], not the
    length of the data it carries, and its message tells whether the data is
    empty. *)
Theorem set_json_after_set_extra key value extra_data total data n :
  py_len data = Some n ->
  exists body extra,
    set_json (set_extra key value extra_data) total data = Ok (PDict body)
    /\ assoc_get body (lit "count") = Some (PInt total)
    /\ assoc_get body (lit "data") = Some data
    /\ assoc_get body (lit "msg")
       = Some (PStr (if (n =? 0)%nat then utf8 "暂无数据" else lit "Success"))
    /\ assoc_get body (lit "extra") = Some (PDict extra)
    /\ assoc_get extra key = Some value
    /\ forall k, k <> key -> assoc_get extra k = assoc_get extra_data k.
Proof.
  intros Hn. unfold set_json, set_extra. rewrite Hn.
  eexists. exists (assoc_set key value extra_data).
  split; [reflexivity|].
  split; [reflexivity|]. split; [reflexivity|].
  split; [destruct n; reflexivity|]. split; [reflexivity|].
  split; [apply assoc_get_set_eq|]. intros k Hk. apply assoc_get_set_ne. exact Hk.
Qed.

Lemma set_json_after_set_extra_witness :
  exists body, set_json (set_extra (lit "page") (PInt 2) []) 40 (PList [PInt 1]) = Ok (PDict body)
               /\ assoc_get body (lit "count") = Some (PInt 40).
Proof.
  destruct (set_json_after_set_extra (lit "page") (PInt 2) [] 40 (PList [PInt 1]) 1 eq_refl)
    as [body [extra [H1 [H2 _]]]].
  exists body. split; [exact H1 | exact H2].
Defined.

Lemma choice_data_length i choice : length (choice_data i choice) = length choice.
Proof.
  revert i. induction choice as [|[value label] rest IH]; intros i; simpl;
    [reflexivity | rewrite IH; reflexivity].
Qed.

Lemma choice_data_nth i choice n value label :
  nth_error choice n = Some (value, label) ->
  nth_error (choice_data i choice) n
  = Some (PDict [ (lit "id", PInt (i + Z.of_nat n)); (lit "label", label);
                  (lit "value", value) ]).
Proof.
  revert i n. induction choice as [|[v l] rest IH]; intros i n; destruct n as [|n]; simpl;
    try discriminate.
  - intros H. injection H as -> ->. rewrite Z.add_0_r. reflexivity.
  - intros H. rewrite (IH (i + 1)%Z n H).
    assert ((i + 1 + Z.of_nat n)%Z = (i + Z.of_nat (S n))%Z) as -> by lia. reflexivity.
Qed.

(** The choice endpoint answers 200 with the envelope of [set_response]:
    [total] is the number of declared choices, and the entry at position
    [n] carries [n] as its [id] with the label and the value of the [n]-th
    choice.  With no choice declared the data is the empty list. *)
Theorem choice_get_spec choice :
  status_code (choice_get choice) = HTTP_200_OK
  /\ resp_data (choice_get choice)
     = PDict [ (lit "result", PStr (lit "success"));
               (lit "total", PInt (Z.of_nat (length choice)));
               (lit "extra", PDict []);
               (lit "data", PList (choice_data 0 choice)) ]
  /\ forall n value label,
       nth_error choice n = Some (value, label) ->
       nth_error (choice_data 0 choice) n
       = Some (PDict [ (lit "id", PInt (Z.of_nat n)); (lit "label", label);
                       (lit "value", value) ]).
Proof.
  split; [reflexivity|]. split.
  - unfold choice_get, set_response. cbn [resp_data is_None].
    rewrite choice_data_length. reflexivity.
  - intros n value label H. exact (choice_data_nth 0 choice n value label H).
Qed.

Lemma rstrip_blank_app s : exists b,
  s = rstrip_blank s ++ b /\ forallb (fun c => c =? c_blank) b = true.
Proof.
  induction s as [|c s [b [Hs Hb]]]; [exists []; split; reflexivity|].
  simpl. destruct (rstrip_blank s) as [|c' r] eqn:E.
  - destruct (N.eqb_spec c c_blank) as [->|Hc].
    + exists (c_blank :: s). split; [reflexivity|]. simpl in Hs. rewrite Hs. exact Hb.
    + exists b. split; [simpl in *; congruence | exact Hb].
  - exists b. split; [rewrite Hs at 1; reflexivity | exact Hb].
Qed.

Lemma lstrip_blank_app s : exists a,
  s = a ++ lstrip_blank s /\ forallb (fun c => c =? c_blank) a = true.
Proof.
  induction s as [|c s [a [Hs Ha]]]; [exists []; split; reflexivity|].
  simpl. destruct (N.eqb_spec c c_blank) as [->|Hc].
  - exists (c_blank :: a). split; [simpl; congruence | exact Ha].
  - exists []. split; reflexivity.
Qed.

Lemma lstrip_blank_head s : hd_error (lstrip_blank s) <> Some c_blank.
Proof.
  induction s as [|c s IH]; simpl; [discriminate|].
  destruct (N.eqb_spec c c_blank) as [->|Hc]; [exact IH | simpl; congruence].
Qed.

Lemma rstrip_blank_last s : List.last (map Some (rstrip_blank s)) None <> Some c_blank.
Proof.
  induction s as [|c s IH]; simpl; [discriminate|].
  destruct (rstrip_blank s) as [|c' r] eqn:E.
  - destruct (N.eqb_spec c c_blank) as [->|Hc]; simpl; congruence.
  - exact IH.
Qed.

Lemma lstrip_blank_last s :
  List.last (map Some s) None <> Some c_blank ->
  List.last (map Some (lstrip_blank s)) None <> Some c_blank.
Proof.
  induction s as [|c s IH]; simpl; [discriminate|].
  destruct (N.eqb_spec c c_blank) as [->|Hc]; [|exact id].
  destruct s as [|c' s']; [simpl; congruence | exact IH].
Qed.

(** What [_clear_query_params] makes of a string [s].  The text [t] it
    works on is [s] without the blanks (and only the blanks) at its two
    ends.  The words [true], [false] and [None] become the values they
    name; any other text but [undefined] and [null] is returned as it is.
    [undefined] and [null] are replaced by
    [params.QUERY_STRING_ILLEGAL_VALUE]: when the module does not define
    it, as [app/params.py] does not, the read raises [AttributeError]; when
    it is defined, its value goes through the same three comparisons, so
    that a value [true], [false] or [None] becomes the value it names and
    any other value is returned as it is. *)
Theorem clear_query_params_str illegal s :
  let t := lstrip_blank (rstrip_blank s) in
  (exists a b, s = a ++ t ++ b
               /\ forallb (fun c => c =? c_blank) a = true
               /\ forallb (fun c => c =? c_blank) b = true)
  /\ hd_error t <> Some c_blank
  /\ List.last (map Some t) None <> Some c_blank
  /\ (t = lit "true" -> _clear_query_params illegal (PStr s) = Ok (PBool true))
  /\ (t = lit "false" -> _clear_query_params illegal (PStr s) = Ok (PBool false))
  /\ (t = lit "None" -> _clear_query_params illegal (PStr s) = Ok PNone)
  /\ (t = lit "undefined" \/ t = lit "null" ->
      illegal = None ->
      _clear_query_params illegal (PStr s)
      = Err (AttributeError
               (lit "module 'app.params' has no attribute 'QUERY_STRING_ILLEGAL_VALUE'")))
  /\ (t = lit "undefined" \/ t = lit "null" ->
      forall v, illegal = Some v ->
      _clear_query_params illegal (PStr s)
      = Ok (if eq_str v (lit "true") then PBool true
            else if eq_str v (lit "false") then PBool false
            else if eq_str v (lit "None") then PNone
            else v))
  /\ (t <> lit "true" -> t <> lit "false" -> t <> lit "None" ->
      t <> lit "undefined" -> t <> lit "null" ->
      _clear_query_params illegal (PStr s) = Ok (PStr t)).
Proof.
  intros t. split.
  { destruct (rstrip_blank_app s) as [b [Hs Hb]].
    destruct (lstrip_blank_app (rstrip_blank s)) as [a [Hr Ha]].
    exists a, b. split; [|split; assumption].
    fold t in Hr. rewrite app_assoc, <- Hr. exact Hs. }
  split; [apply lstrip_blank_head|].
  split; [apply lstrip_blank_last, rstrip_blank_last|].
  unfold _clear_query_params. fold t.
  split; [intros ->; reflexivity|]. split; [intros ->; reflexivity|].
  split; [intros ->; reflexivity|]. split; [|split].
  - intros [->| ->] ->; reflexivity.
  - assert (forall v,
              (let v1 := if eq_str v (lit "true") then PBool true else v in
               let v2 := if eq_str v1 (lit "false") then PBool false else v1 in
               if eq_str v2 (lit "None") then PNone else v2)
              = (if eq_str v (lit "true") then PBool true
                 else if eq_str v (lit "false") then PBool false
                 else if eq_str v (lit "None") then PNone
                 else v)) as Hchain.
    { intros v. cbv zeta. destruct (eq_str v (lit "true")); [reflexivity|].
      destruct (eq_str v (lit "false")); reflexivity. }
    intros [->| ->] v ->; cbn -[eq_str lit]; f_equal; apply Hchain.
  - intros H1 H2 H3 H4 H5.
    rewrite (bool_decide_eq_false_2 _ H4), (bool_decide_eq_false_2 _ H5). cbn [orb].
    unfold eq_str. rewrite (bool_decide_eq_false_2 _ H1). cbn iota.
    rewrite (bool_decide_eq_false_2 _ H2). cbn iota.
    rewrite (bool_decide_eq_false_2 _ H3). reflexivity.
Qed.

(** ** Facts about the flows *)

Lemma post_bind {DB A B} (Q : A -> vstate DB -> Prop) (P : B -> vstate DB -> Prop)
    (m : V DB A) (k : A -> V DB B) s :
  post_at Q m s ->
  (forall a s', Q a s' -> post_at P (k a) s') ->
  post_at P (vbind m k) s.
Proof.
  unfold post_at, vbind. intros Hm Hk. destruct (m s) as [[a|e] s']; [|exact I].
  exact (Hk a s' Hm).
Qed.

Lemma post_any {DB A} (m : V DB A) s : post_at (fun _ _ => True) m s.
Proof. unfold post_at. destruct (m s) as [[a|e] s']; exact I. Qed.

Lemma post_hook {DB A B} (P : B -> vstate DB -> Prop) (m : V DB A) (k : A -> V DB B) s :
  (forall a s', post_at P (k a) s') -> post_at P (vbind m k) s.
Proof. intros Hk. apply (post_bind (fun _ _ => True)); [apply post_any | intros a s' _; apply Hk]. Qed.

Lemma post_ret {DB A} (P : A -> vstate DB -> Prop) a s : P a s -> post_at P (vret a) s.
Proof. exact id. Qed.

Lemma post_try {DB A} (P : A -> vstate DB -> Prop) (body : V DB A) handler s :
  post_at P body s ->
  (forall e s', post_at P (handler e) s') ->
  post_at P (try_except body handler) s.
Proof.
  unfold post_at, try_except. intros Hb Hh. destruct (body s) as [[a|e] s']; [exact Hb|].
  destruct (exc_is_Exception e); [apply Hh | exact I].
Qed.

Lemma post_reject {DB} lb ok error reason (s : vstate DB) :
  post_at (answered lb ok) (reject lb error reason) s.
Proof.
  unfold post_at, reject, vbind, set_rollback, logger_error, vret, answered.
  destruct lb; cbn; [right; repeat split; reflexivity | exact I].
Qed.

Lemma post_failed {DB} lb ok result prefix e (s : vstate DB) :
  post_at (answered lb ok) (failed lb result prefix HTTP_400_BAD_REQUEST e) s.
Proof.
  unfold post_at, failed, vbind, set_rollback, logger_error, vret, answered.
  destruct lb; cbn; [right; repeat split; reflexivity | exact I].
Qed.

Lemma post_invalid {DB} lb ok result prefix errors (s : vstate DB) :
  post_at (answered lb ok) (invalid lb result prefix errors) s.
Proof.
  unfold post_at, invalid, vbind, set_rollback, logger_error, vret, answered.
  destruct lb; cbn; [right; repeat split; reflexivity | exact I].
Qed.

Lemma post_early {DB X} lb ok (m : V DB Response) (s : vstate DB) :
  post_at (answered lb ok) m s ->
  post_at (answered_early (X := X) lb ok) (resp <~ m ;; vret (inl resp)) s.
Proof.
  intros H. apply (post_bind (answered lb ok)); [exact H|].
  intros resp s' Hr. exact Hr.
Qed.

(** What [atomic] makes of a body that answers as above. *)
Lemma atomic_answered {DB} lb ok (body : V DB Response) (s : vstate DB) :
  (forall s0, post_at (answered lb ok) body s0) ->
  match atomic body s with
  | (Ok resp, s') =>
      status_code resp = ok
      \/ (status_code resp = HTTP_400_BAD_REQUEST /\ needs_rollback s' = true
          /\ db s' = db s /\ lb = true)
  | (Err e, s') => db s' = db s
  end.
Proof.
  intros H. unfold atomic.
  specialize (H {| db := db s; needs_rollback := false; logged := logged s |}).
  unfold post_at in H. destruct (body _) as [[resp|e] s']; [|reflexivity].
  destruct H as [H|[H1 [H2 H3]]]; [left; exact H|].
  right. rewrite H2. cbn. repeat split; assumption.
Qed.

(** [create] answers 201 or 400, or raises.  It answers 400 only with the
    transaction marked for rollback, and then, as whenever it raises, the
    database is the one the flow started from.  It can answer 400 only if
    the name [logger] is bound: otherwise every error branch ends in the
    [NameError] of its [logger.error] call. *)
Theorem create_outcomes {DB S Inst : Type} logger_bound
    (pre validate : V DB (pyval * pyval)) (get_serializer : V DB S)
    (is_valid : S -> V DB bool) (errors : S -> text)
    (perform : S -> V DB Inst) (post : Inst -> V DB (pyval * pyval)) (s : vstate DB) :
  match BasicCreateModelMixin.create logger_bound pre validate get_serializer is_valid
          errors perform post s with
  | (Ok resp, s') =>
      status_code resp = HTTP_201_CREATED
      \/ (status_code resp = HTTP_400_BAD_REQUEST /\ needs_rollback s' = true
          /\ db s' = db s /\ logger_bound = true)
  | (Err e, s') => db s' = db s
  end.
Proof.
  apply atomic_answered. intros s0. unfold BasicCreateModelMixin.create_body.
  apply post_hook. intros [error reason] s1.
  destruct (truthy error); [apply post_reject|].
  apply post_hook. intros [error' reason'] s2.
  destruct (truthy error'); [apply post_reject|].
  apply post_hook. intros serializer s3.
  apply post_hook. intros valid s4.
  destruct valid; cbn [negb]; [|apply post_invalid].
  apply (post_bind (answered_early logger_bound HTTP_201_CREATED)).
  - apply post_try.
    + apply post_hook. intros i s5. apply post_ret. exact I.
    + intros e s5. apply post_early, post_failed.
  - intros [resp|instances] s5 Hr; [apply post_ret; exact Hr|].
    apply post_hook. intros [error'' reason''] s6.
    destruct (truthy error''); [apply post_reject|].
    apply post_ret. left. reflexivity.
Qed.

(** The bulk [update] answers 200 or 400, or raises; a 400 comes with the
    transaction marked and the database as it was, and takes a bound
    [logger]; so does the database stay as it was when the flow raises. *)
Theorem bulk_update_outcomes {DB Inst : Type} logger_bound
    (pre validate : V DB (pyval * pyval)) (perform : V DB (pyval * pyval * Inst))
    (post : Inst -> V DB (pyval * pyval)) (s : vstate DB) :
  match BasicBulkUpdateModelMixin.update logger_bound pre validate perform post s with
  | (Ok resp, s') =>
      status_code resp = HTTP_200_OK
      \/ (status_code resp = HTTP_400_BAD_REQUEST /\ needs_rollback s' = true
          /\ db s' = db s /\ logger_bound = true)
  | (Err e, s') => db s' = db s
  end.
Proof.
  apply atomic_answered. intros s0. unfold BasicBulkUpdateModelMixin.update_body.
  apply post_hook. intros [error reason] s1.
  destruct (truthy error); [apply post_reject|].
  apply post_hook. intros [error' reason'] s2.
  destruct (truthy error'); [apply post_reject|].
  apply (post_bind (answered_early logger_bound HTTP_200_OK)).
  - apply post_try.
    + apply post_hook. intros x s3. apply post_ret. exact Logic.I.
    + intros e s3. apply post_early, post_failed.
  - intros [resp|[[error'' reason''] instances]] s3 Hr; [apply post_ret; exact Hr|].
    destruct (truthy error''); [apply post_reject|].
    apply post_hook. intros [error3 reason3] s4.
    destruct (truthy error3); [apply post_reject|].
    apply post_ret. left. reflexivity.
Qed.

(** The single-resource [update], in its full and in its partial variant,
    answers 200 or 400, or raises, under the same terms. *)
Theorem update_outcomes {DB S Inst : Type} logger_bound
    (pre validate : V DB (pyval * pyval)) (get_object : V DB Inst) (partial : pyval)
    (perform_partial : Inst -> V DB (pyval * pyval)) (get_serializer : Inst -> V DB S)
    (is_valid : S -> V DB bool) (errors : S -> text)
    (perform : S -> V DB (pyval * pyval)) (post : Inst -> V DB (pyval * pyval))
    (s : vstate DB) :
  match BasicUpdateModelMixin.update logger_bound pre validate get_object partial
          perform_partial get_serializer is_valid errors perform post s with
  | (Ok resp, s') =>
      status_code resp = HTTP_200_OK
      \/ (status_code resp = HTTP_400_BAD_REQUEST /\ needs_rollback s' = true
          /\ db s' = db s /\ logger_bound = true)
  | (Err e, s') => db s' = db s
  end.
Proof.
  apply atomic_answered. intros s0. unfold BasicUpdateModelMixin.update_body.
  apply post_hook. intros [error reason] s1.
  destruct (truthy error); [apply post_reject|].
  apply post_hook. intros [error' reason'] s2.
  destruct (truthy error'); [apply post_reject|].
  apply post_hook. intros instance s3.
  apply (post_bind (answered_early logger_bound HTTP_200_OK)).
  - unfold BasicUpdateModelMixin.perform. destruct (negb (is_None partial)).
    + apply post_hook. intros [e1 r1] s4.
      destruct (truthy e1); [apply post_early, post_reject | apply post_ret; exact Logic.I].
    + apply post_hook. intros serializer s4. apply post_hook. intros valid s5.
      destruct valid; cbn [negb]; [|apply post_early, post_invalid].
      apply (post_bind (answered_early logger_bound HTTP_200_OK)).
      * apply post_try.
        -- apply post_hook. intros x s6. apply post_ret. exact Logic.I.
        -- intros e s6. apply post_early, post_failed.
      * intros [resp|[e2 r2]] s6 Hr; [apply post_ret; exact Hr|].
        destruct (truthy e2); [apply post_early, post_reject | apply post_ret; exact Logic.I].
  - intros [resp|u] s4 Hr; [apply post_ret; exact Hr|].
    apply post_hook. intros [error3 reason3] s5.
    destruct (truthy error3); [apply post_reject|].
    apply post_ret. left. reflexivity.
Qed.

Lemma vbind_ok {DB A B} (m : V DB A) (k : A -> V DB B) s a s' :
  m s = (Ok a, s') -> vbind m k s = k a s'.
Proof. intros H. unfold vbind. rewrite H. reflexivity. Qed.

Lemma vbind_err {DB A B} (m : V DB A) (k : A -> V DB B) s e s' :
  m s = (Err e, s') -> vbind m k s = (Err e, s').
Proof. intros H. unfold vbind. rewrite H. reflexivity. Qed.

Lemma try_ok {DB A} (body : V DB A) handler s a s' :
  body s = (Ok a, s') -> try_except body handler s = (Ok a, s').
Proof. intros H. unfold try_except. rewrite H. reflexivity. Qed.

Lemma try_caught {DB A} (body : V DB A) handler s e s' :
  body s = (Err e, s') -> exc_is_Exception e = true ->
  try_except body handler s = handler e s'.
Proof. intros H He. unfold try_except. rewrite H, He. reflexivity. Qed.

(** When the step that deletes reports an error, [destroy] answers 400
    without marking the transaction: with a bound [logger], what the step
    did to the database before reporting is committed.  (The other error
    branches of the flow mark the transaction first.) *)
Theorem destroy_reported_error_is_committed {DB Q Inst : Type}
    (get_instances : V DB Q) (perform : Q -> V DB (pyval * pyval * Inst))
    (post : Inst -> V DB (pyval * pyval)) (s s1 s2 : vstate DB) q error reason instances :
  get_instances (entered s) = (Ok q, s1) ->
  perform q s1 = (Ok (error, reason, instances), s2) ->
  truthy error = true ->
  needs_rollback s2 = false ->
  BasicDestroyModelMixin.destroy true no_error no_error get_instances perform post s
  = (Ok (set_response error reason PNone HTTP_400_BAD_REQUEST),
     {| db := db s2; needs_rollback := false;
        logged := logged s2 ++ [(utf8 "请求异常：{error}, {reason}", [error; reason])] |}).
Proof.
  intros Hg Hp Ht Hm.
  unfold BasicDestroyModelMixin.destroy, atomic. fold (entered s).
  unfold BasicDestroyModelMixin.destroy_body.
  rewrite (vbind_ok no_error _ (entered s) (PNone, PStr []) (entered s) eq_refl). cbn [truthy].
  rewrite (vbind_ok no_error _ (entered s) (PNone, PStr []) (entered s) eq_refl). cbn [truthy].
  rewrite (vbind_ok _ _ _ _ _ Hg).
  erewrite (vbind_ok (try_except _ _)).
  2:{ apply try_ok. rewrite (vbind_ok _ _ _ _ _ Hp). reflexivity. }
  cbn iota. rewrite Ht.
  unfold vbind, logger_error, vret. cbn [needs_rollback db logged]. rewrite Hm.
  reflexivity.
Qed.

(** When the step that patches raises, [extra] marks the transaction and
    then logs.  With a bound [logger] it answers with the status left at its
    default, 200, and the text of the exception; without it, as the module
    stands (it binds no [logger]), the handler itself raises [NameError] and
    [extra] gives no answer.  In both cases the transaction is rolled back. *)
Theorem extra_failure_is_answered_200 {DB Q : Type} logger_bound post_logs
    (get_target : V DB Q) (perform : Q -> V DB (pyval * pyval * Response))
    (post : Q -> V DB (pyval * pyval)) (s s1 s2 : vstate DB) q e :
  get_target (entered s) = (Ok q, s1) ->
  perform q s1 = (Err e, s2) ->
  exc_is_Exception e = true ->
  BasicPatchModelMixin.extra logger_bound post_logs no_error no_error get_target perform post s
  = if logger_bound then
      (Ok (set_response (PStr (lit "Failed to patch"))
             (PStr (utf8 "patch请求处理失败,错误原因:" ++ exc_text e)) PNone HTTP_200_OK),
       {| db := db s; needs_rollback := true;
          logged := logged s2 ++ [(utf8 "请求异常：{error}", [PStr (exc_text e)])] |})
    else
      (Err (NameError (lit "name 'logger' is not defined")),
       {| db := db s; needs_rollback := true; logged := logged s2 |}).
Proof.
  intros Hg Hp He.
  unfold BasicPatchModelMixin.extra, atomic. fold (entered s).
  unfold BasicPatchModelMixin.extra_body.
  rewrite (vbind_ok no_error _ (entered s) (PNone, PStr []) (entered s) eq_refl). cbn [truthy].
  rewrite (vbind_ok no_error _ (entered s) (PNone, PStr []) (entered s) eq_refl). cbn [truthy].
  rewrite (vbind_ok _ _ _ _ _ Hg).
  destruct logger_bound.
  - erewrite (vbind_ok (try_except _ _)).
    2:{ erewrite try_caught; [|rewrite (vbind_err _ _ _ _ _ Hp); reflexivity|exact He].
        unfold failed, vbind, set_rollback, logger_error, vret. reflexivity. }
    reflexivity.
  - erewrite (vbind_err (try_except _ _)).
    2:{ erewrite try_caught; [|rewrite (vbind_err _ _ _ _ _ Hp); reflexivity|exact He].
        unfold failed, vbind, set_rollback, logger_error, vret. reflexivity. }
    reflexivity.
Qed.

(** An exception raised while the object is fetched is not turned into an
    answer: [retrieve] has no handler around [get_object], so it raises the
    same exception, and [atomic] rolls the transaction back. *)
Theorem retrieve_lets_get_object_raise {DB Inst : Type} logger_bound
    (get_object : V DB Inst) (perform : Inst -> V DB (pyval * pyval * Response))
    (post : Inst -> V DB (pyval * pyval)) (s s1 : vstate DB) e :
  get_object (entered s) = (Err e, s1) ->
  BasicRetrieveModelMixin.retrieve logger_bound no_error get_object perform post s
  = (Err e, {| db := db s; needs_rollback := needs_rollback s1; logged := logged s1 |}).
Proof.
  intros Hg.
  unfold BasicRetrieveModelMixin.retrieve, atomic. fold (entered s).
  unfold BasicRetrieveModelMixin.retrieve_body.
  rewrite (vbind_ok no_error _ (entered s) (PNone, PStr []) (entered s) eq_refl). cbn [truthy].
  rewrite (vbind_err _ _ _ _ _ Hg). reflexivity.
Qed.

Lemma first_missing_spec check get name :
  first_missing check get = Some name <->
  exists before after,
    check = before ++ name :: after
    /\ is_None (get name) = true
    /\ forall x, In x before -> is_None (get x) = false.
Proof.
  induction check as [|c check IH]; simpl.
  - split; [discriminate|]. intros [[|b before] [after [H _]]]; discriminate.
  - destruct (is_None (get c)) eqn:E.
    + split.
      * intros H. injection H as <-. exists [], check.
        split; [reflexivity|]. split; [exact E | intros x []].
      * intros [[|b before] [after [H [Hn Hb]]]].
        -- injection H as -> _. reflexivity.
        -- injection H as -> _. rewrite (Hb b (or_introl eq_refl)) in E. discriminate.
    + rewrite IH. split.
      * intros [before [after [-> [Hn Hb]]]]. exists (c :: before), after.
        split; [reflexivity|]. split; [exact Hn|].
        intros x [<-|Hx]; [exact E | exact (Hb x Hx)].
      * intros [[|b before] [after [H [Hn Hb]]]].
        -- injection H as -> _. congruence.
        -- injection H as -> ->. exists before, after.
           split; [reflexivity|]. split; [exact Hn|].
           intros x Hx. apply Hb. right. exact Hx.
Qed.

(** A [list] request that lacks a query string the view requires is
    answered before any query is made: the first missing name, in the order
    of [query_string_check], is reported with status 400, the transaction
    is marked, and the step that lists is never run.  That is with a bound
    [logger]; without it the flow raises [NameError] at this point. *)
Theorem list_missing_query_string {DB : Type} logger_bound check get name
    (perform : V DB Response) (post : Response -> V DB (pyval * pyval * Response))
    (s : vstate DB) :
  first_missing check get = Some name ->
  let error := PStr (lit "Query String " ++ name ++ lit " is required") in
  let reason := PStr (utf8 "查询字符串 " ++ name ++ utf8 " 为必传字段") in
  BasicListModelMixin.list logger_bound
    (vret (BasicListModelMixin._pre_process_list check get)) perform post s
  = if logger_bound then
      (Ok (set_response error reason PNone HTTP_400_BAD_REQUEST),
       {| db := db s; needs_rollback := true;
          logged := logged s ++ [(utf8 "请求异常：{error}, {reason}", [error; reason])] |})
    else
      (Err (NameError (lit "name 'logger' is not defined")),
       {| db := db s; needs_rollback := true; logged := logged s |}).
Proof.
  intros Hm error reason.
  unfold BasicListModelMixin.list, atomic. fold (entered s).
  unfold BasicListModelMixin.list_body, BasicListModelMixin._pre_process_list.
  rewrite Hm. fold error reason.
  rewrite (vbind_ok (vret (error, reason)) _ (entered s) (error, reason) (entered s) eq_refl).
  assert (truthy error = true) as -> by (unfold error; destruct name; reflexivity).
  unfold reject, vbind, set_rollback, logger_error, vret.
  destruct logger_bound; reflexivity.
Qed.

(** The same for a bulk [create] that lacks a required field of the body. *)
Theorem create_missing_field {DB S Inst : Type} logger_bound check get field
    (validate : V DB (pyval * pyval)) (get_serializer : V DB S)
    (is_valid : S -> V DB bool) (errors : S -> text)
    (perform : S -> V DB Inst) (post : Inst -> V DB (pyval * pyval)) (s : vstate DB) :
  first_missing check get = Some field ->
  let error := PStr (lit "field " ++ field ++ lit " is required") in
  let reason := PStr (utf8 "字段 " ++ field ++ utf8 " 为必填字段") in
  BasicCreateModelMixin.create logger_bound
    (vret (BasicCreateModelMixin.bulk_pre_process_create check get))
    validate get_serializer is_valid errors perform post s
  = if logger_bound then
      (Ok (set_response error reason PNone HTTP_400_BAD_REQUEST),
       {| db := db s; needs_rollback := true;
          logged := logged s ++ [(utf8 "请求异常：{error}, {reason}", [error; reason])] |})
    else
      (Err (NameError (lit "name 'logger' is not defined")),
       {| db := db s; needs_rollback := true; logged := logged s |}).
Proof.
  intros Hm error reason.
  unfold BasicCreateModelMixin.create, atomic. fold (entered s).
  unfold BasicCreateModelMixin.create_body, BasicCreateModelMixin.bulk_pre_process_create.
  rewrite Hm. fold error reason.
  rewrite (vbind_ok (vret (error, reason)) _ (entered s) (error, reason) (entered s) eq_refl).
  assert (truthy error = true) as -> by (unfold error; reflexivity).
  unfold reject, vbind, set_rollback, logger_error, vret.
  destruct logger_bound; reflexivity.
Qed.

(** With the checks the mixin defines itself, [dispatch] takes neither of
    its two refusals: both checks return [True] on every path, so the
    result of [dispatch] is that of [super().dispatch], whatever it is,
    called with [user] set to [None] when authentication is disabled and to
    a fresh object otherwise. *)
Theorem dispatch_default_checks {DB : Type} authentication_enable fresh is_base
    permission_enable (handler : pyval -> V DB Response) (s : vstate DB) :
  BasicAuthPermissionViewMixin.dispatch
    (vret (BasicAuthPermissionViewMixin.check_authentication authentication_enable fresh))
    (fun _ => vret (BasicAuthPermissionViewMixin.check_permission is_base permission_enable))
    handler s
  = handler (if is_False authentication_enable then PNone else PObj fresh) s.
Proof.
  unfold BasicAuthPermissionViewMixin.dispatch,
    BasicAuthPermissionViewMixin.check_authentication,
    BasicAuthPermissionViewMixin.check_permission, vbind, vret.
  destruct (is_False authentication_enable), is_base, (truthy permission_enable); reflexivity.
Qed.

Lemma destroy_reported_error_is_committed_witness :
  BasicDestroyModelMixin.destroy true no_error no_error fetch_all delete_and_complain
    (fun _ => no_error) (table_state [1; 2; 3])
  = (Ok (set_response (PStr (lit "audit failed"))
           (PStr (lit "the audit trail could not be written")) PNone HTTP_400_BAD_REQUEST),
     {| db := []; needs_rollback := false;
        logged := [(utf8 "请求异常：{error}, {reason}",
                    [PStr (lit "audit failed");
                     PStr (lit "the audit trail could not be written")])] |}).
Proof.
  exact (destroy_reported_error_is_committed fetch_all delete_and_complain (fun _ => no_error)
           (table_state [1; 2; 3]) (table_state [1; 2; 3]) (table_state [])
           [1; 2; 3] _ _ tt eq_refl eq_refl eq_refl eq_refl).
Defined.

Lemma extra_failure_is_answered_200_witness :
  (exists resp,
     fst (BasicPatchModelMixin.extra true true no_error no_error fetch_all
            delete_and_raise (fun _ => no_error) (table_state [1; 2; 3])) = Ok resp
     /\ status_code resp = HTTP_200_OK)
  /\ db (snd (BasicPatchModelMixin.extra true true no_error no_error fetch_all
                delete_and_raise (fun _ => no_error) (table_state [1; 2; 3])))
     = [1; 2; 3]
  /\ BasicPatchModelMixin.extra false true no_error no_error fetch_all
       delete_and_raise (fun _ => no_error) (table_state [1; 2; 3])
     = (Err (NameError (lit "name 'logger' is not defined")),
        {| db := [1; 2; 3]; needs_rollback := true; logged := [] |}).
Proof.
  rewrite (extra_failure_is_answered_200 true true fetch_all delete_and_raise (fun _ => no_error)
             (table_state [1; 2; 3]) (table_state [1; 2; 3]) (table_state [])
             [1; 2; 3] _ eq_refl eq_refl eq_refl).
  rewrite (extra_failure_is_answered_200 false true fetch_all delete_and_raise (fun _ => no_error)
             (table_state [1; 2; 3]) (table_state [1; 2; 3]) (table_state [])
             [1; 2; 3] _ eq_refl eq_refl eq_refl).
  split; [eexists; split; reflexivity|]. split; reflexivity.
Defined.

Lemma retrieve_lets_get_object_raise_witness :
  exists e, fst (BasicRetrieveModelMixin.retrieve (I := N) true no_error not_found
                   (fun _ => vret (PNone, PStr [], set_response PNone PNone PNone 200))
                   (fun _ => no_error) (table_state [1])) = Err e.
Proof.
  eexists.
  rewrite (retrieve_lets_get_object_raise true not_found _ _ (table_state [1])
             (table_state [1]) _ eq_refl).
  reflexivity.
Defined.

Lemma list_missing_query_string_witness :
  status_code
    (match fst (BasicListModelMixin.list true
                  (vret (BasicListModelMixin._pre_process_list [lit "page"; lit "limit"]
                           only_page))
                  (vret (set_response PNone PNone PNone 200))
                  (fun r => vret (PNone, PStr [], r)) (table_state [1])) with
     | Ok resp => resp
     | Err _ => set_response PNone PNone PNone 0
     end) = HTTP_400_BAD_REQUEST.
Proof.
  rewrite (list_missing_query_string true [lit "page"; lit "limit"] only_page (lit "limit")
             _ _ (table_state [1]) eq_refl).
  reflexivity.
Defined.

Lemma create_missing_field_witness :
  status_code
    (match fst (BasicCreateModelMixin.create (S := unit) (I := unit) true
                  (vret (BasicCreateModelMixin.bulk_pre_process_create
                           [lit "page"; lit "limit"] only_page))
                  no_error (vret tt) (fun _ => vret true) (fun _ => [])
                  (fun _ => vret tt) (fun _ => no_error) (table_state [1])) with
     | Ok resp => resp
     | Err _ => set_response PNone PNone PNone 0
     end) = HTTP_400_BAD_REQUEST.
Proof.
  rewrite (create_missing_field true [lit "page"; lit "limit"] only_page (lit "limit")
             _ _ _ _ _ _ (table_state [1]) eq_refl).
  reflexivity.
Defined.

(** *** Pagination *)

Lemma slice_segment {R} start stop (qs rows : list R) :
  BasicListModelMixin.slice start stop qs = Ok rows ->
  (exists before after, qs = before ++ rows ++ after)
  /\ (Z.of_nat (length rows) <= Z.max (stop - start) 0)%Z.
Proof.
  unfold BasicListModelMixin.slice. destruct ((start <? 0)%Z || (stop <? 0)%Z); [discriminate|].
  intros H. injection H as <-. split.
  - exists (take (Z.to_nat start) qs),
      (drop (Z.to_nat (stop - start)) (drop (Z.to_nat start) qs)).
    rewrite (take_drop (Z.to_nat (stop - start))), take_drop. reflexivity.
  - rewrite length_take. lia.
Qed.

(** [paginate] neither invents nor reorders rows: what it returns is a run
    of consecutive rows of the filtered set.  When it pages, the run is no
    longer than the limit. *)
Theorem paginate_returns_a_segment {R} py_int page limit paginate_disable (qs rows : list R) :
  BasicListModelMixin.paginate py_int page limit paginate_disable qs = Ok rows ->
  (exists before after, qs = before ++ rows ++ after)
  /\ (paginate_disable = None ->
      BasicListModelMixin.given page || BasicListModelMixin.given limit = true ->
      exists l, BasicListModelMixin.int_of py_int limit = Ok l
                /\ (Z.of_nat (length rows) <= Z.max l 0)%Z).
Proof.
  unfold BasicListModelMixin.paginate.
  destruct paginate_disable as [d|].
  { intros H. injection H as <-. split; [|discriminate].
    exists [], []. rewrite app_nil_r. reflexivity. }
  destruct (BasicListModelMixin.given page || BasicListModelMixin.given limit) eqn:G; cbn [negb].
  2:{ intros H. injection H as <-. split; [|discriminate].
      exists [], []. rewrite app_nil_r. reflexivity. }
  destruct (BasicListModelMixin.int_of py_int page) as [p|e]; [|discriminate].
  destruct (BasicListModelMixin.int_of py_int limit) as [l|e]; [|discriminate].
  destruct ((p - 1) * l >=? Z.of_nat (length qs))%Z; intros H;
    destruct (slice_segment _ _ _ _ H) as [Hs Hl];
    (split; [exact Hs|]); intros _ _; exists l; (split; [reflexivity|]);
    [|replace (p * l - (p - 1) * l)%Z with l in Hl by ring]; lia.
Qed.

Lemma paginate_returns_a_segment_witness :
  exists before after, [1; 2; 3; 4; 5] = before ++ [3; 4] ++ after.
Proof.
  exact (proj1 (paginate_returns_a_segment decimal_int (Some (lit "2")) (Some (lit "2")) None
                  [1; 2; 3; 4; 5] [3; 4] eq_refl)).
Defined.

Lemma paginate_page_zero {R} py_int page limit l (qs : list R) :
  py_int page = Ok 0%Z ->
  py_int limit = Ok l ->
  (0 < l)%Z ->
  page <> [] ->
  BasicListModelMixin.paginate py_int (Some page) (Some limit) None qs
  = Err BasicListModelMixin.negative_indexing.
Proof.
  intros Hp Hl Hpos Hne. unfold BasicListModelMixin.paginate, BasicListModelMixin.int_of.
  destruct page as [|c page]; [congruence|]. cbn [BasicListModelMixin.given orb negb].
  rewrite Hp, Hl. cbn zeta.
  destruct (Z.geb_spec ((0 - 1) * l) (Z.of_nat (length qs))) as [H|H]; [lia|].
  unfold BasicListModelMixin.slice.
  destruct (Z.ltb_spec ((0 - 1) * l) 0) as [H'|H']; [reflexivity | lia].
Qed.

(** A request for page 0 is not served the first page: the slice starts
    below zero, the query set refuses it, and [list], whose handler catches
    the exception, answers 400 with the transaction marked (that is with a
    bound [logger]). *)
Theorem list_page_zero_is_answered_400 {DB R : Type} py_int
    (filter_queryset : V DB (list R)) (serialize : list R -> V DB pyval) extra_data
    page limit l (post : Response -> V DB (pyval * pyval * Response))
    (s s1 : vstate DB) qs :
  py_int page = Ok 0%Z ->
  py_int limit = Ok l ->
  (0 < l)%Z ->
  page <> [] ->
  filter_queryset (entered s) = (Ok qs, s1) ->
  BasicListModelMixin.list true no_error
    (BasicListModelMixin._perform_list py_int filter_queryset serialize extra_data
       (Some page) (Some limit) None)
    post s
  = (Ok (set_response (PStr (lit "Failed to get model list"))
           (PStr (utf8 "获取资源数据列表失败,错误信息为"
                  ++ lit "Negative indexing is not supported."))
           PNone HTTP_400_BAD_REQUEST),
     {| db := db s; needs_rollback := true;
        logged := logged s1
                  ++ [(utf8 "请求异常：{error}",
                       [PStr (lit "Negative indexing is not supported.")])] |}).
Proof.
  intros Hp Hl Hpos Hne Hf.
  unfold BasicListModelMixin.list, atomic. fold (entered s).
  unfold BasicListModelMixin.list_body.
  rewrite (vbind_ok no_error _ (entered s) (PNone, PStr []) (entered s) eq_refl). cbn [truthy].
  assert (BasicListModelMixin._perform_list py_int filter_queryset serialize extra_data
            (Some page) (Some limit) None (entered s)
          = (Err BasicListModelMixin.negative_indexing, s1)) as Hperf.
  { unfold BasicListModelMixin._perform_list.
    rewrite (vbind_ok _ _ _ _ _ Hf).
    rewrite (paginate_page_zero py_int page limit l qs Hp Hl Hpos Hne).
    reflexivity. }
  erewrite (vbind_ok (try_except _ _)).
  2:{ rewrite (try_caught _ _ _ _ _ (vbind_err _ _ _ _ _ Hperf) eq_refl).
      unfold failed, vbind, set_rollback, logger_error, vret. reflexivity. }
  reflexivity.
Qed.

Lemma list_page_zero_is_answered_400_witness :
  status_code
    (match fst (BasicListModelMixin.list true no_error
                  (BasicListModelMixin._perform_list decimal_int fetch_all serialize_ids []
                     (Some (lit "0")) (Some (lit "10")) None)
                  (fun r => vret (PNone, PStr [], r)) (table_state [1; 2; 3])) with
     | Ok resp => resp
     | Err _ => set_response PNone PNone PNone 0
     end) = HTTP_400_BAD_REQUEST.
Proof.
  rewrite (list_page_zero_is_answered_400 decimal_int fetch_all serialize_ids []
             (lit "0") (lit "10") 10 _ (table_state [1; 2; 3]) (table_state [1; 2; 3])
             [1; 2; 3] eq_refl eq_refl eq_refl ltac:(discriminate) eq_refl).
  reflexivity.
Defined.

(** The answer of the step that lists carries, as [count], the number of
    all the rows that pass the filter, whatever page of them it carries as
    [data]. *)
Theorem perform_list_reports_total {DB R : Type} py_int
    (filter_queryset : V DB (list R)) (serialize : list R -> V DB pyval) extra_data
    page limit paginate_disable (s s' : vstate DB) resp :
  BasicListModelMixin._perform_list py_int filter_queryset serialize extra_data
    page limit paginate_disable s = (Ok resp, s') ->
  exists qs s1 rows data body,
    filter_queryset s = (Ok qs, s1)
    /\ BasicListModelMixin.paginate py_int page limit paginate_disable qs = Ok rows
    /\ serialize rows s1 = (Ok data, s')
    /\ status_code resp = HTTP_200_OK
    /\ resp_data resp = PDict body
    /\ assoc_get body (lit "count") = Some (PInt (Z.of_nat (length qs)))
    /\ assoc_get body (lit "data") = Some data.
Proof.
  unfold BasicListModelMixin._perform_list, vbind, BasicListModelMixin.lift, vret.
  destruct (filter_queryset s) as [[qs|e] s1] eqn:Ef; [|discriminate].
  destruct (BasicListModelMixin.paginate py_int page limit paginate_disable qs) as [rows|e]
    eqn:Ep; [|discriminate].
  destruct (serialize rows s1) as [[data|e] s2] eqn:Es; [|discriminate].
  unfold set_json. destruct (py_len data) as [n|]; [|discriminate].
  intros H. injection H as <- <-.
  exists qs, s1, rows, data. eexists.
  split; [reflexivity|]. split; [exact Ep|]. split; [exact Es|].
  split; [reflexivity|]. split; [reflexivity|]. split; reflexivity.
Qed.

Lemma perform_list_reports_total_witness :
  exists body,
    resp_data
      (match fst (BasicListModelMixin._perform_list decimal_int fetch_all serialize_ids []
                    (Some (lit "2")) (Some (lit "2")) None (table_state [1; 2; 3; 4; 5])) with
       | Ok resp => resp
       | Err _ => set_response PNone PNone PNone 0
       end) = PDict body
    /\ assoc_get body (lit "count") = Some (PInt 5)
    /\ assoc_get body (lit "data") = Some (PList [PInt 3; PInt 4]).
Proof.
  destruct (perform_list_reports_total decimal_int fetch_all serialize_ids []
              (Some (lit "2")) (Some (lit "2")) None (table_state [1; 2; 3; 4; 5])
              (table_state [1; 2; 3; 4; 5])
              {| resp_data := PDict [ (lit "code", PInt 0); (lit "msg", PStr (lit "Success"));
                                      (lit "count", PInt 5);
                                      (lit "data", PList [PInt 3; PInt 4]);
                                      (lit "extra", PDict []) ];
                 status_code := HTTP_200_OK |} eq_refl)
    as [qs [s1 [rows [data [body [Hf [Hp [Hs [_ [Hb [Hc Hd]]]]]]]]]]].
  exists body. cbn in Hb. split; [|split].
  - rewrite <- Hb. reflexivity.
  - injection Hf as <- _. exact Hc.
  - injection Hf as <- <-. injection Hp as <-. injection Hs as <-. exact Hd.
Defined.
